(** * Tomato ripeness analyser: frame pipeline and colour classifier

    A shallow embedding of [with_local_upload.py] and
    [optimized_with_local_upload.py]: the [UnripePercentageCalculator]
    class, the capture thread, the MJPEG generator and the two Flask views
    [/process] and [/upload].

    The Python code works on NumPy arrays that live on the heap and are
    passed by reference, on three module globals ([last_frame], [lock],
    [frame_ready]) and on two libraries (OpenCV, NumPy).  The embedding
    keeps that shape: arrays live in a store and are named by addresses,
    every function of the source is a computation in a state-and-exception
    monad over the store and the globals, and the library routines whose
    bodies are not part of the repository are the fields of two
    interfaces. *)

From Stdlib Require Import ZArith QArith Qround Lqa List String Ascii Lia Bool.
From Stdlib.Strings Require Import Byte.
From stdpp Require Import base option list strings gmap.

Local Open Scope string_scope.
Local Open Scope Z_scope.
Local Open Scope list_scope.

(** ** Data model *)

(** One pixel of a three-channel 8-bit image, in the channel order of the
    array that holds it (R,G,B; B,G,R; or H,S,V). *)
Definition pixel : Type := Z * Z * Z.

Definition uint8 (x : Z) : Prop := 0 <= x <= 255.

Definition pixel_uint8 (p : pixel) : Prop :=
  uint8 p.1.1 /\ uint8 p.1.2 /\ uint8 p.2.

(** A NumPy array of shape [(shape0, shape1)] (times the channels held in
    one element), stored row-major the way NumPy stores it. *)
Record ndarray (A : Type) : Type := mk_ndarray {
  shape0 : nat;
  shape1 : nat;
  data : list A
}.
Arguments mk_ndarray {A} _ _ _.
Arguments shape0 {A} _.
Arguments shape1 {A} _.
Arguments data {A} _.

(** The arrays NumPy can build: as many elements as the shape says. *)
Definition well_shaped {A} (a : ndarray A) : Prop :=
  length (data a) = (shape0 a * shape1 a)%nat.

(** [a.shape[0] * a.shape[1]] *)
Definition total_of {A} (a : ndarray A) : Z :=
  Z.of_nat (shape0 a) * Z.of_nat (shape1 a).

Definition frame_uint8 (a : ndarray pixel) : Prop :=
  Forall pixel_uint8 (data a).

(** Python exceptions that the modelled code can meet.  [InvalidFrame] is
    the error the specification names for a frame without pixels; it is
    here so that statements can speak of it, and nothing in the program
    raises it. *)
Inductive exn : Type :=
| cv2_error (msg : string)
| KeyError (key : string)
| ValueError (msg : string)
| RuntimeError (msg : string)
| InvalidFrame.

Inductive outcome (A : Type) : Type :=
| Returned (a : A)
| Raised (e : exn).
Arguments Returned {A} _.
Arguments Raised {A} _.

(** ** The libraries *)

(** float64 arithmetic as the classifier uses it: [int / int], [float *
    int] and [round(x, ndigits)]. *)
Class Float64 : Type := {
  float : Type;
  of_int : Z -> float;
  truediv : float -> float -> float;
  fmul : float -> float -> float;
  round_ : float -> Z -> float;
  fle : float -> float -> Prop
}.

(** What the development uses of IEEE-754 arithmetic rounded to nearest:
    the quotient of two integers is monotone in the dividend when the
    divisor is positive, multiplication by 100 and rounding to two decimals
    are monotone, and the three are exact at the end points 0, 1 and 100. *)
Class Float64Laws (F : Float64) : Prop := {
  truediv_mono : forall d a b, 0 < d -> a <= b ->
    fle (truediv (of_int a) (of_int d)) (truediv (of_int b) (of_int d));
  truediv_zero : forall d, 0 < d -> truediv (of_int 0) (of_int d) = of_int 0;
  truediv_self : forall d, 0 < d -> truediv (of_int d) (of_int d) = of_int 1;
  fmul_100_mono : forall x y,
    fle x y -> fle (fmul x (of_int 100)) (fmul y (of_int 100));
  fmul_100_zero : fmul (of_int 0) (of_int 100) = of_int 0;
  fmul_100_one : fmul (of_int 1) (of_int 100) = of_int 100;
  round2_mono : forall x y, fle x y -> fle (round_ x 2) (round_ y 2);
  round2_zero : round_ (of_int 0) 2 = of_int 0;
  round2_hundred : round_ (of_int 100) 2 = of_int 100
}.

(** The OpenCV routines whose result depends on code outside the
    repository: the per-pixel RGB to HSV conversion behind
    [cv2.cvtColor(_, cv2.COLOR_RGB2HSV)], the image decoder and the JPEG
    encoder.  The two codecs may raise; [imdecode] answers [None] where
    [cv2.imdecode] returns [None]. *)
Class OpenCV : Type := {
  rgb2hsv : pixel -> pixel;
  imdecode : list byte -> outcome (option (ndarray pixel));
  imencode_jpg : list (Z * Z) -> ndarray pixel -> outcome (list byte)
}.

(** The value ranges of 8-bit HSV: hue in [0,180], saturation and value in
    [0,255]. *)
Definition hsv_in_range (p : pixel) : Prop :=
  0 <= p.1.1 <= 180 /\ 0 <= p.1.2 <= 255 /\ 0 <= p.2 <= 255.

Class OpenCVLaws (L : OpenCV) : Prop := {
  rgb2hsv_range : forall p, pixel_uint8 p -> hsv_in_range (rgb2hsv p)
}.

(** ** The store, the globals and the trace *)

(** What a run leaves behind for an observer: lock operations, library
    calls that read or write [elems] pixels, lines printed, sleeps. *)
Inductive event : Type :=
| EvAcquire
| EvRelease
| EvArrayOp (name : string) (elems : nat)
| EvPrint (line : string)
| EvSleep (seconds : Q).

(** Arrays are Python objects: they are created, never freed, and named by
    their address.  Three-channel arrays and single-channel arrays are kept
    in two stores. *)
Record world : Type := mk_world {
  frames : list (ndarray pixel);
  planes : list (ndarray Z);
  last_frame : option nat;
  frame_ready : bool;
  lock_held : bool;
  trace : list event
}.

Definition set_frames (f : list (ndarray pixel)) (w : world) : world :=
  mk_world f (planes w) (last_frame w) (frame_ready w) (lock_held w) (trace w).
Definition set_planes (p : list (ndarray Z)) (w : world) : world :=
  mk_world (frames w) p (last_frame w) (frame_ready w) (lock_held w) (trace w).
Definition set_last_frame (l : option nat) (w : world) : world :=
  mk_world (frames w) (planes w) l (frame_ready w) (lock_held w) (trace w).
Definition set_frame_ready (b : bool) (w : world) : world :=
  mk_world (frames w) (planes w) (last_frame w) b (lock_held w) (trace w).
Definition set_lock_held (b : bool) (w : world) : world :=
  mk_world (frames w) (planes w) (last_frame w) (frame_ready w) b (trace w).
Definition emit (e : event) (w : world) : world :=
  mk_world (frames w) (planes w) (last_frame w) (frame_ready w) (lock_held w)
    (trace w ++ [e]).

(** The state of the module when it has just been imported. *)
Definition initial_world : world :=
  mk_world [] [] None false false [].

(** ** The monad *)

Definition M (A : Type) : Type := world -> outcome A * world.

Definition ret {A} (a : A) : M A := fun w => (Returned a, w).

Definition bind {A B} (m : M A) (k : A -> M B) : M B :=
  fun w =>
    match m w with
    | (Returned a, w') => k a w'
    | (Raised e, w') => (Raised e, w')
    end.

Definition raise {A} (e : exn) : M A := fun w => (Raised e, w).

(** [try: m except Exception as e: h e] *)
Definition try_except {A} (m : M A) (h : exn -> M A) : M A :=
  fun w =>
    match m w with
    | (Returned a, w') => (Returned a, w')
    | (Raised e, w') => h e w'
    end.

Definition gets {A} (f : world -> A) : M A := fun w => (Returned (f w), w).
Definition modify (f : world -> world) : M unit := fun w => (Returned tt, f w).
Definition log (e : event) : M unit := modify (emit e).

#[global] Instance M_ret : MRet M := @ret.
#[global] Instance M_bind : MBind M := fun A B k m => bind m k.

(** [with lock: body].  The lock is released on every way out of the
    block: falling through, [return], [continue], or an exception. *)
Definition with_lock {A} (body : M A) : M A :=
  fun w =>
    match body (emit EvAcquire (set_lock_held true w)) with
    | (o, w') => (o, emit EvRelease (set_lock_held false w'))
    end.

(** [for x in xs: body x] *)
Fixpoint for_ {A} (xs : list A) (body : A -> M unit) : M unit :=
  match xs with
  | [] => ret tt
  | x :: rest => bind (body x) (fun _ => for_ rest body)
  end.

(** ** Store primitives *)

Definition load_frame (r : nat) : M (ndarray pixel) :=
  fun w =>
    match frames w !! r with
    | Some a => (Returned a, w)
    | None => (Raised (RuntimeError "no such array"), w)
    end.

Definition load_plane (r : nat) : M (ndarray Z) :=
  fun w =>
    match planes w !! r with
    | Some a => (Returned a, w)
    | None => (Raised (RuntimeError "no such array"), w)
    end.

(** A new array gets the next free address. *)
Definition alloc_frame (a : ndarray pixel) : M nat :=
  fun w => (Returned (length (frames w)), set_frames (frames w ++ [a]) w).

Definition alloc_plane (a : ndarray Z) : M nat :=
  fun w => (Returned (length (planes w)), set_planes (planes w ++ [a]) w).

(** Writing into an array that exists, as an in-place operator does. *)
Definition store_plane (r : nat) (a : ndarray Z) : M unit :=
  modify (fun w => set_planes (<[r:=a]> (planes w)) w).

Definition elems {A} (a : ndarray A) : nat := length (data a).

(** ** OpenCV *)

Inductive color_code : Type := COLOR_RGB2HSV | COLOR_BGR2RGB | COLOR_RGB2BGR.

Definition swap_rb (p : pixel) : pixel := (p.2, p.1.2, p.1.1).

Definition IMWRITE_JPEG_QUALITY : Z := 1.
Definition IMWRITE_JPEG_OPTIMIZE : Z := 3.

(** [cv2.inRange] on one pixel: every channel between its two bounds, both
    included. *)
Definition in_range (lower upper p : pixel) : bool :=
  (lower.1.1 <=? p.1.1) && (p.1.1 <=? upper.1.1) &&
  (lower.1.2 <=? p.1.2) && (p.1.2 <=? upper.1.2) &&
  (lower.2 <=? p.2) && (p.2 <=? upper.2).

Module cv2.
Section with_library.
Context {L : OpenCV}.

Definition convert_pixel (code : color_code) (p : pixel) : pixel :=
  match code with
  | COLOR_RGB2HSV => rgb2hsv p
  | COLOR_BGR2RGB | COLOR_RGB2BGR => swap_rb p
  end.

(** [cv2.cvtColor(src, code)]: a new array of the same shape.  OpenCV
    asserts that the source is not empty and raises [cv2.error]
    otherwise. *)
Definition cvtColor (src : nat) (code : color_code) : M nat :=
  a ← load_frame src;
  log (EvArrayOp "cvtColor" (elems a));;
  if (shape0 a * shape1 a =? 0)%nat
  then raise (cv2_error "(-215:Assertion failed) !_src.empty() in function 'cvtColor'")
  else
    alloc_frame (mk_ndarray (shape0 a) (shape1 a) (map (convert_pixel code) (data a))).

(** [cv2.inRange(src, lower, upper)]: a new single-channel array, 255
    where the pixel is in range and 0 elsewhere. *)
Definition inRange (src : nat) (lower upper : pixel) : M nat :=
  a ← load_frame src;
  log (EvArrayOp "inRange" (elems a));;
  alloc_plane (mk_ndarray (shape0 a) (shape1 a)
                 (map (fun p => if in_range lower upper p then 255 else 0) (data a))).

(** [cv2.imdecode(buf, cv2.IMREAD_COLOR)]: a new BGR array, or [None]. *)
Definition imdecode_color (buf : list byte) : M (option nat) :=
  log (EvArrayOp "imdecode" (length buf));;
  match imdecode buf with
  | Raised e => raise e
  | Returned None => mret None
  | Returned (Some a) => r ← alloc_frame a; mret (Some r)
  end.

(** [cv2.imencode('.jpg', img, params)[1].tobytes()] *)
Definition imencode (img : nat) (params : list (Z * Z)) : M (list byte) :=
  a ← load_frame img;
  log (EvArrayOp "imencode" (elems a));;
  match imencode_jpg params a with
  | Raised e => raise e
  | Returned jpg => mret jpg
  end.
End with_library.
End cv2.

(** ** NumPy *)

Module np.
(** [np.zeros(shape, dtype=np.uint8)] *)
Definition zeros (shape : nat * nat) : M nat :=
  log (EvArrayOp "zeros" (shape.1 * shape.2));;
  alloc_plane (mk_ndarray shape.1 shape.2 (replicate (shape.1 * shape.2) 0)).

(** [a.shape[:2]] *)
Definition shape (r : nat) : M (nat * nat) :=
  a ← load_frame r; mret (shape0 a, shape1 a).

(** [a |= b], in place in [a].  Operands of different shapes are
    rejected (broadcasting is not modelled; the source never needs it). *)
Definition ior (a b : nat) : M unit :=
  x ← load_plane a;
  y ← load_plane b;
  if decide (shape0 x = shape0 y /\ shape1 x = shape1 y)
  then
    log (EvArrayOp "ior" (elems x));;
    store_plane a (mk_ndarray (shape0 x) (shape1 x) (zip_with Z.lor (data x) (data y)))
  else raise (ValueError "operands could not be broadcast together").

(** [a > 0]: a new boolean array. *)
Definition greater0 (a : nat) : M nat :=
  x ← load_plane a;
  log (EvArrayOp "greater" (elems x));;
  alloc_plane (mk_ndarray (shape0 x) (shape1 x)
                 (map (fun v => if 0 <? v then 1 else 0) (data x))).

(** [np.sum(a)] *)
Definition sum (a : nat) : M Z :=
  x ← load_plane a;
  log (EvArrayOp "sum" (elems x));;
  mret (foldr Z.add 0 (data x)).

(** [a.copy()] *)
Definition copy (a : nat) : M nat :=
  x ← load_frame a;
  log (EvArrayOp "copy" (elems x));;
  alloc_frame x.
End np.

(** ** The rest of the environment *)

(** [picam2.capture_array()].  What the camera does is not decided by the
    program: each call is given its result, a fresh array or an exception. *)
Definition capture_array (r : outcome (ndarray pixel)) : M nat :=
  match r with
  | Returned a => alloc_frame a
  | Raised e => raise e
  end.

Definition str (e : exn) : string :=
  match e with
  | cv2_error m | KeyError m | ValueError m | RuntimeError m => m
  | InvalidFrame => "InvalidFrame"
  end.

Definition print (line : string) : M unit := log (EvPrint line).
Definition sleep (seconds : Q) : M unit := log (EvSleep seconds).

(** The dictionary [calculate] returns. *)
Record results {F : Float64} : Type := mk_results {
  unripe_pct : float;
  ripe_pct : float;
  transitional_pct : float;
  total_pixels : Z
}.

(** What a view hands to [jsonify]. *)
Inductive response {F : Float64} : Type :=
| json_error (msg : string)
| json_results (r : results).

Definition crlf : string := String "013" (String "010" EmptyString).

(** [b'--frame\r\nContent-Type: image/jpeg\r\n\r\n' + jpg + b'\r\n'] *)
Definition multipart (jpg : list byte) : list byte :=
  list_byte_of_string
    (String.append "--frame"
       (String.append crlf
          (String.append "Content-Type: image/jpeg" (String.append crlf crlf))))
  ++ jpg ++ list_byte_of_string crlf.

(** One turn of a generator's [while True]: it yields, it goes back to the
    loop head, or it is suspended in a wait. *)
Inductive turn (A : Type) : Type :=
| Yield (a : A)
| Continue
| Wait.
Arguments Yield {A} _.
Arguments Continue {A}.
Arguments Wait {A}.

(** The calculator object. *)
Record calculator : Type := mk_calculator {
  color_ranges : gmap string (pixel * pixel)
}.

(** [d[k]] *)
Definition getitem {V} (d : gmap string V) (k : string) : M V :=
  match d !! k with
  | Some v => mret v
  | None => raise (KeyError k)
  end.

(** ** [with_local_upload.py] *)

Module WithLocalUpload.
Section program.
Context {F : Float64} {L : OpenCV}.

(** [class UnripePercentageCalculator]: an object with one attribute, the
    dictionary of named HSV ranges. *)
Definition UnripePercentageCalculator : calculator :=
  {| color_ranges := list_to_map [
       ("unripe_green", ((30, 30, 50), (80, 255, 200)));
       ("unripe_whitish", ((0, 0, 100), (180, 50, 200)));
       ("unripe_light_red", ((0, 30, 100), (15, 100, 200)));
       ("ripe_red", ((0, 50, 50), (10, 255, 255)));
       ("ripe_dark_red", ((170, 50, 50), (180, 255, 255)));
       ("transitional_yellow", ((15, 50, 50), (30, 255, 255)));
       ("transitional_light_red", ((0, 20, 100), (20, 80, 255)))
     ] |}.

Definition _mask (self : calculator) (image : nat) (keys : list string) : M nat :=
  hsv ← cv2.cvtColor image COLOR_RGB2HSV;
  shp ← np.shape hsv;
  combined ← np.zeros shp;
  for_ keys (fun k =>
    '(lower, upper) ← getitem (color_ranges self) k;
    mask ← cv2.inRange hsv lower upper;
    np.ior combined mask);;
  mret combined.

Definition calculate (self : calculator) (image : nat) : M results :=
  unripe_mask ← _mask self image ["unripe_green"; "unripe_whitish"; "unripe_light_red"];
  ripe_mask ← _mask self image ["ripe_red"; "ripe_dark_red"];
  transitional_mask ← _mask self image ["transitional_yellow"; "transitional_light_red"];
  shp ← np.shape image;
  let total := Z.of_nat shp.1 * Z.of_nat shp.2 in
  unripe ← (b ← np.greater0 unripe_mask; np.sum b);
  ripe ← (b ← np.greater0 ripe_mask; np.sum b);
  transitional ← (b ← np.greater0 transitional_mask; np.sum b);
  mret {| unripe_pct := round_ (fmul (truediv (of_int unripe) (of_int total)) (of_int 100)) 2;
          ripe_pct := round_ (fmul (truediv (of_int ripe) (of_int total)) (of_int 100)) 2;
          transitional_pct :=
            round_ (fmul (truediv (of_int transitional) (of_int total)) (of_int 100)) 2;
          total_pixels := total |}.

(** The capture thread.  [camera] holds what the successive calls of
    [picam2.capture_array()] give; the thread is still in its loop when
    the computation returns, and has died when it raises. *)
Fixpoint capture_loop (camera : list (outcome (ndarray pixel))) : M unit :=
  match camera with
  | [] => mret tt
  | r :: camera' =>
      frame ← capture_array r;
      with_lock (modify (set_last_frame (Some frame)));;
      sleep (3 # 100);;
      capture_loop camera'
  end.

(** One turn of the [while True] of the generator [gen_frames]. *)
Definition gen_frames : M (turn (list byte)) :=
  r ← with_lock (
    lf ← gets last_frame;
    match lf with
    | None => mret None
    | Some f =>
        frame ← cv2.cvtColor f COLOR_RGB2BGR;
        jpg ← cv2.imencode frame [];
        mret (Some jpg)
    end);
  match r with
  | None => mret Continue
  | Some jpg => mret (Yield (multipart jpg))
  end.

(** [@app.route('/process')] *)
Definition process_camera : M response :=
  r ← with_lock (
    lf ← gets last_frame;
    match lf with
    | None => mret (inl (json_error "No frame captured"))
    | Some f => image_rgb ← np.copy f; mret (inr image_rgb)
    end);
  match r with
  | inl early => mret early
  | inr image_rgb =>
      let calc := UnripePercentageCalculator in
      res ← calculate calc image_rgb;
      mret (json_results res)
  end.

(** [@app.route('/upload', methods=['POST'])]; [request_files] is
    [request.files] with each file already read. *)
Definition upload_image (request_files : gmap string (list byte)) : M response :=
  match request_files !! "file" with
  | None => mret (json_error "No file uploaded")
  | Some file =>
      let npimg := file in
      image ← cv2.imdecode_color npimg;
      match image with
      | None => mret (json_error "Invalid image")
      | Some image =>
          image_rgb ← cv2.cvtColor image COLOR_BGR2RGB;
          let calc := UnripePercentageCalculator in
          res ← calculate calc image_rgb;
          mret (json_results res)
      end
  end.
End program.
End WithLocalUpload.

(** ** [optimized_with_local_upload.py] *)

Module Optimized.
Section program.
Context {F : Float64} {L : OpenCV}.

(** [class UnripePercentageCalculator]: an object with one attribute, the
    dictionary of named HSV ranges. *)
Definition UnripePercentageCalculator : calculator :=
  {| color_ranges := list_to_map [
       ("unripe_green", ((30, 30, 50), (80, 255, 200)));
       ("unripe_whitish", ((0, 0, 100), (180, 50, 200)));
       ("unripe_light_red", ((0, 30, 100), (15, 100, 200)));
       ("ripe_red", ((0, 50, 50), (10, 255, 255)));
       ("ripe_dark_red", ((170, 50, 50), (180, 255, 255)));
       ("transitional_yellow", ((15, 50, 50), (30, 255, 255)));
       ("transitional_light_red", ((0, 20, 100), (20, 80, 255)))
     ] |}.

Definition _mask (self : calculator) (image : nat) (keys : list string) : M nat :=
  hsv ← cv2.cvtColor image COLOR_RGB2HSV;
  shp ← np.shape hsv;
  combined ← np.zeros shp;
  for_ keys (fun k =>
    '(lower, upper) ← getitem (color_ranges self) k;
    mask ← cv2.inRange hsv lower upper;
    np.ior combined mask);;
  mret combined.

Definition calculate (self : calculator) (image : nat) : M results :=
  unripe_mask ← _mask self image ["unripe_green"; "unripe_whitish"; "unripe_light_red"];
  ripe_mask ← _mask self image ["ripe_red"; "ripe_dark_red"];
  transitional_mask ← _mask self image ["transitional_yellow"; "transitional_light_red"];
  shp ← np.shape image;
  let total := Z.of_nat shp.1 * Z.of_nat shp.2 in
  unripe ← (b ← np.greater0 unripe_mask; np.sum b);
  ripe ← (b ← np.greater0 ripe_mask; np.sum b);
  transitional ← (b ← np.greater0 transitional_mask; np.sum b);
  mret {| unripe_pct := round_ (fmul (truediv (of_int unripe) (of_int total)) (of_int 100)) 2;
          ripe_pct := round_ (fmul (truediv (of_int ripe) (of_int total)) (of_int 100)) 2;
          transitional_pct :=
            round_ (fmul (truediv (of_int transitional) (of_int total)) (of_int 100)) 2;
          total_pixels := total |}.

(** The capture thread, as above. *)
Fixpoint capture_loop (camera : list (outcome (ndarray pixel))) : M unit :=
  match camera with
  | [] => mret tt
  | r :: camera' =>
      try_except
        (frame ← capture_array r;
         with_lock (
           modify (set_last_frame (Some frame));;
           modify (set_frame_ready true)))
        (fun e =>
           print (String.append "Capture error: " (str e));;
           sleep (1 # 1000));;
      capture_loop camera'
  end.

(** One turn of the [while True] of the generator [gen_frames]:
    [frame_ready.wait()] lets it through once the event is set. *)
Definition gen_frames : M (turn (list byte)) :=
  ready ← gets frame_ready;
  if negb ready then mret Wait
  else
    r ← with_lock (
      lf ← gets last_frame;
      match lf with
      | None => mret None
      | Some f =>
          let frame := f in
          modify (set_frame_ready false);;
          mret (Some frame)
      end);
    match r with
    | None => mret Continue
    | Some frame =>
        jpg ← cv2.imencode frame [(IMWRITE_JPEG_QUALITY, 60); (IMWRITE_JPEG_OPTIMIZE, 1)];
        mret (Yield (multipart jpg))
    end.

(** [@app.route('/process')] *)
Definition process_camera : M response :=
  r ← with_lock (
    lf ← gets last_frame;
    match lf with
    | None => mret (inl (json_error "No frame captured"))
    | Some f => image_rgb ← np.copy f; mret (inr image_rgb)
    end);
  match r with
  | inl early => mret early
  | inr image_rgb =>
      let calc := UnripePercentageCalculator in
      res ← calculate calc image_rgb;
      mret (json_results res)
  end.

(** [@app.route('/upload', methods=['POST'])]; [request_files] is
    [request.files] with each file already read. *)
Definition upload_image (request_files : gmap string (list byte)) : M response :=
  match request_files !! "file" with
  | None => mret (json_error "No file uploaded")
  | Some file =>
      let npimg := file in
      image ← cv2.imdecode_color npimg;
      match image with
      | None => mret (json_error "Invalid image")
      | Some image =>
          image_rgb ← cv2.cvtColor image COLOR_BGR2RGB;
          let calc := UnripePercentageCalculator in
          res ← calculate calc image_rgb;
          mret (json_results res)
      end
  end.
End program.
End Optimized.

(** ** What the classifier computes, as functions of the frame alone *)

Section classifier_functions.
Context {F : Float64} {L : OpenCV}.

(** The frame [cv2.cvtColor(image, cv2.COLOR_RGB2HSV)] builds. *)
Definition hsv_of (img : ndarray pixel) : ndarray pixel :=
  mk_ndarray (shape0 img) (shape1 img) (map rgb2hsv (data img)).

(** The mask [cv2.inRange] builds for one range. *)
Definition range_plane (r : pixel * pixel) (hsv : ndarray pixel) : ndarray Z :=
  mk_ndarray (shape0 hsv) (shape1 hsv)
    (map (fun p => if in_range r.1 r.2 p then 255 else 0) (data hsv)).

(** One turn of the loop of [_mask] on the contents of [combined]. *)
Definition ior_range (hsv : ndarray pixel) (acc : list Z) (r : pixel * pixel) : list Z :=
  zip_with Z.lor acc (data (range_plane r hsv)).

(** The array [_mask] returns when its keys name [ranges]. *)
Definition mask_fun (ranges : list (pixel * pixel)) (img : ndarray pixel) : ndarray Z :=
  mk_ndarray (shape0 img) (shape1 img)
    (foldl (ior_range (hsv_of img)) (replicate (shape0 img * shape1 img) 0) ranges).

(** [np.sum(mask > 0)] *)
Definition count_fun (m : ndarray Z) : Z :=
  foldr Z.add 0 (map (fun v => if 0 <? v then 1 else 0) (data m)).

Definition pct (count total : Z) : float :=
  round_ (fmul (truediv (of_int count) (of_int total)) (of_int 100)) 2.

Definition ranges_of (self : calculator) (keys : list string) : option (list (pixel * pixel)) :=
  mapM (fun k => color_ranges self !! k) keys.

(** The body of the loop of [_mask], for the arrays [hsv] and [combined]. *)
Definition mask_body (self : calculator) (hsv combined : nat) (k : string) : M unit :=
  '(lower, upper) ← getitem (color_ranges self) k;
  mask ← cv2.inRange hsv lower upper;
  np.ior combined mask.

(** The exception OpenCV raises for an empty source. *)
Definition empty_error : exn :=
  cv2_error "(-215:Assertion failed) !_src.empty() in function 'cvtColor'".

(** The three groups of ranges that [calculate] names by their keys. *)
Definition unripe_ranges : list (pixel * pixel) :=
  [((30, 30, 50), (80, 255, 200));
   ((0, 0, 100), (180, 50, 200));
   ((0, 30, 100), (15, 100, 200))].

Definition ripe_ranges : list (pixel * pixel) :=
  [((0, 50, 50), (10, 255, 255));
   ((170, 50, 50), (180, 255, 255))].

Definition transitional_ranges : list (pixel * pixel) :=
  [((15, 50, 50), (30, 255, 255));
   ((0, 20, 100), (20, 80, 255))].

(** The dictionary [calculate] returns for a frame that is not empty. *)
Definition calculate_fun (img : ndarray pixel) : results :=
  {| unripe_pct := pct (count_fun (mask_fun unripe_ranges img)) (total_of img);
     ripe_pct := pct (count_fun (mask_fun ripe_ranges img)) (total_of img);
     transitional_pct := pct (count_fun (mask_fun transitional_ranges img)) (total_of img);
     total_pixels := total_of img |}.

(** The outcome of [calculate] on a frame. *)
Definition classify (img : ndarray pixel) : outcome results :=
  if (shape0 img * shape1 img =? 0)%nat
  then Raised empty_error
  else Returned (calculate_fun img).

(** The HSV pixel [p] lies within the bounds of one range, both ends
    included, on each of the three channels. *)
Definition within (r : pixel * pixel) (p : pixel) : Prop :=
  (r.1.1.1 <= p.1.1 <= r.2.1.1) /\
  (r.1.1.2 <= p.1.2 <= r.2.1.2) /\
  (r.1.2 <= p.2 <= r.2.2).

Definition range_bit (r : pixel * pixel) (p : pixel) : Z :=
  if in_range r.1 r.2 p then 255 else 0.

(** The HSV pixel lies within at least one of the ranges. *)
Definition in_group (ranges : list (pixel * pixel)) (p : pixel) : bool :=
  existsb (fun r => in_range r.1 r.2 p) ranges.

(** The number of pixels of the frame whose HSV value lies within at least
    one of the ranges. *)
Definition matching (ranges : list (pixel * pixel)) (img : ndarray pixel) : nat :=
  length (List.filter (fun p => in_group ranges (rgb2hsv p)) (data img)).

(** What the loop of [_mask] leaves at one position of [combined]. *)
Definition mask_bit (ranges : list (pixel * pixel)) (acc : Z) (p : pixel) : Z :=
  foldl (fun a r => Z.lor a (range_bit r p)) acc ranges.

End classifier_functions.

(** [m] is the mask of the group that [keys] name in the dictionary of
    [self], for the frame [img]: it has the shape of the frame, it holds 0
    or 255 at each position, and a position is set exactly when the HSV
    value of the pixel there lies within the bounds, ends included, of at
    least one range that the keys name. *)
Definition group_mask {L : OpenCV} (self : calculator) (keys : list string)
    (img : ndarray pixel) (m : ndarray Z) : Prop :=
  shape0 m = shape0 img /\ shape1 m = shape1 img /\
  forall i p, data img !! i = Some p ->
    exists v, data m !! i = Some v /\ (v = 0 \/ v = 255) /\
      (v <> 0 <->
       exists k lower upper,
         k ∈ keys /\
         color_ranges self !! k = Some (lower, upper) /\
         within (lower, upper) (rgb2hsv p)).

(** ** States that only grow *)

Definition is_array_op (e : event) : Prop :=
  match e with EvArrayOp _ _ => True | _ => False end.

(** [w'] is [w] with more arrays and a longer trace of library calls:
    nothing that existed has changed. *)
Record extends (w w' : world) : Prop := mk_extends {
  ext_frames : frames w `prefix_of` frames w';
  ext_planes : planes w `prefix_of` planes w';
  ext_last_frame : last_frame w' = last_frame w;
  ext_frame_ready : frame_ready w' = frame_ready w;
  ext_lock_held : lock_held w' = lock_held w;
  ext_trace : exists evs, trace w' = trace w ++ evs /\ Forall is_array_op evs
}.

(** ** Work done while the lock is held *)

(** The number of pixels read or written by library calls between an
    acquire and the release that follows it. *)
Fixpoint critical_work_from (held : bool) (evs : list event) : nat :=
  match evs with
  | [] => 0
  | EvAcquire :: evs => critical_work_from true evs
  | EvRelease :: evs => critical_work_from false evs
  | EvArrayOp _ n :: evs => (if held then n else 0) + critical_work_from held evs
  | _ :: evs => critical_work_from held evs
  end.

Definition critical_work (evs : list event) : nat := critical_work_from false evs.

(** What a view answers when the classifier has run. *)
Definition respond {F : Float64} (o : outcome results) : outcome response :=
  match o with
  | Returned r => Returned (json_results r)
  | Raised e => Raised e
  end.

(** What [/process] answers, as a function of the register and of the
    store of frames. *)
Definition process_answer {F : Float64} {L : OpenCV}
    (register : option nat) (store : list (ndarray pixel)) : outcome response :=
  match register with
  | None => Returned (json_error "No frame captured")
  | Some f =>
      match store !! f with
      | Some img => respond (classify img)
      | None => Raised (RuntimeError "no such array")
      end
  end.

(** ** Two models of the libraries *)

(** Exact arithmetic on rationals, the arithmetic that float64
    approximates: a model of [Float64Laws]. *)
Definition round_half_even (x : Q) : Z :=
  let f := Qfloor x in
  match (x - inject_Z f ?= 1 # 2)%Q with
  | Lt => f
  | Gt => f + 1
  | Eq => if Z.even f then f else f + 1
  end.

Definition round_decimal (x : Q) (ndigits : Z) : Q :=
  let s := inject_Z (10 ^ Z.abs ndigits) in
  if 0 <=? ndigits
  then Qred (inject_Z (round_half_even (x * s)) / s)
  else Qred (inject_Z (round_half_even (x / s)) * s).

Definition exact_arith : Float64 :=
  {| float := Q;
     of_int := inject_Z;
     truediv := fun x y => Qred (x / y);
     fmul := fun x y => Qred (x * y);
     round_ := round_decimal;
     fle := Qle |}.

(** OpenCV's conversion of one 8-bit RGB pixel to HSV with hue in half
    degrees: fixed-point arithmetic with 12 fractional bits on two tables
    of rounded reciprocals. *)
Definition hsv_shift : Z := 12.

Definition sdiv_table (i : Z) : Z :=
  if i =? 0 then 0 else (2 * Z.shiftl 255 hsv_shift + i) / (2 * i).

Definition hdiv_table180 (i : Z) : Z :=
  if i =? 0 then 0 else (2 * Z.shiftl 180 hsv_shift + 6 * i) / (12 * i).

Definition saturate_uchar (x : Z) : Z := Z.max 0 (Z.min 255 x).

(** The check on one entry of the hue table that keeps the hue within
    half degrees: the entry is not negative and five times the largest
    difference, scaled and rounded, stays below 181. *)
Definition hdiv_ok (d : Z) : bool :=
  (0 <=? hdiv_table180 d) &&
  (5 * d * hdiv_table180 d + Z.shiftl 1 (hsv_shift - 1) <? 181 * 2 ^ hsv_shift).

Definition RGB2HSV_b (p : pixel) : pixel :=
  let '(r, g, b) := p in
  let v := Z.max (Z.max b g) r in
  let vmin := Z.min (Z.min b g) r in
  let diff := saturate_uchar (v - vmin) in
  let vr := if v =? r then -1 else 0 in
  let vg := if v =? g then -1 else 0 in
  let s := Z.shiftr (diff * sdiv_table v + Z.shiftl 1 (hsv_shift - 1)) hsv_shift in
  let h := Z.land vr (g - b) +
           Z.land (Z.lnot vr)
             (Z.land vg (b - r + 2 * diff) + Z.land (Z.lnot vg) (r - g + 4 * diff)) in
  let h := Z.shiftr (h * hdiv_table180 diff + Z.shiftl 1 (hsv_shift - 1)) hsv_shift in
  let h := h + (if h <? 0 then 180 else 0) in
  (saturate_uchar h, s mod 256, v mod 256).

(** A headerless stand-in for the image codecs: one byte of height, one of
    width, then the pixels as B, G, R bytes.  Anything else does not
    decode; like OpenCV, the decoder raises on an empty buffer and the
    encoder on an empty image. *)
Fixpoint bgr_pixels (body : list byte) : list pixel :=
  match body with
  | b :: g :: r :: rest =>
      (Z.of_N (Byte.to_N b), Z.of_N (Byte.to_N g), Z.of_N (Byte.to_N r)) :: bgr_pixels rest
  | _ => []
  end.

Definition raw_decode (buf : list byte) : outcome (option (ndarray pixel)) :=
  match buf with
  | [] => Raised (cv2_error "(-215:Assertion failed) !buf.empty() in function 'imdecode_'")
  | h :: w :: body =>
      let h := N.to_nat (Byte.to_N h) in
      let w := N.to_nat (Byte.to_N w) in
      if (length body =? 3 * (h * w))%nat && negb (h * w =? 0)%nat
      then Returned (Some (mk_ndarray h w (bgr_pixels body)))
      else Returned None
  | _ => Returned None
  end.

Definition byte_of_Z (x : Z) : byte :=
  default x00 (Byte.of_N (Z.to_N (x mod 256))).

Definition raw_encode (params : list (Z * Z)) (a : ndarray pixel) : outcome (list byte) :=
  if (shape0 a * shape1 a =? 0)%nat
  then Raised (cv2_error "(-215:Assertion failed) !image.empty() in function 'imencode'")
  else Returned
         (byte_of_Z (Z.of_nat (shape0 a)) :: byte_of_Z (Z.of_nat (shape1 a)) ::
          flat_map (fun p : pixel => [byte_of_Z p.1.1; byte_of_Z p.1.2; byte_of_Z p.2])
            (data a)).

Definition reference_cv : OpenCV :=
  {| rgb2hsv := RGB2HSV_b; imdecode := raw_decode; imencode_jpg := raw_encode |}.

(** ** The pipeline, turn by turn *)

(** The events a run has added to the trace. *)
Definition new_events (w w' : world) : list event :=
  drop (length (trace w)) (trace w').

(** The state in which a frame has been stored in the store and published
    under the lock. *)
Definition published (ready : bool) (a : ndarray pixel) (w : world) : world :=
  let w1 := set_frames (frames w ++ [a]) w in
  let w2 := emit EvAcquire (set_lock_held true w1) in
  let w3 := set_last_frame (Some (length (frames w))) w2 in
  let w4 := if ready then set_frame_ready true w3 else w3 in
  emit EvRelease (set_lock_held false w4).

(** The state one turn of the capture loop of
    [optimized_with_local_upload.py] leaves. *)
Definition optimized_turn (r : outcome (ndarray pixel)) (w : world) : world :=
  match r with
  | Returned a => published true a w
  | Raised e =>
      emit (EvSleep (1 # 1000))
        (emit (EvPrint (String.append "Capture error: " (str e))) w)
  end.

(** The state one turn of the capture loop of [with_local_upload.py]
    leaves when the camera gives a frame. *)
Definition baseline_turn (a : ndarray pixel) (w : world) : world :=
  emit (EvSleep (3 # 100)) (published false a w).

(** ** Concrete frames and worlds *)

(** A frame of one colour. *)
Definition solid (h w : nat) (p : pixel) : ndarray pixel :=
  mk_ndarray h w (replicate (h * w) p).

(** The array with no pixels. *)
Definition empty_frame : ndarray pixel := mk_ndarray 0 0 [].

(** A world in which the capture thread has published [a]. *)
Definition world_with (a : ndarray pixel) : world :=
  mk_world [a] [] (Some 0%nat) true false [].

(** Two by two pixels of pure red. *)
Definition red_frame : ndarray pixel := solid 2 2 (255, 0, 0).

(** One pixel whose HSV value, (4, 59, 150), lies in a range of each of the
    three groups. *)
Definition pale_red_frame : ndarray pixel := solid 1 1 (150, 120, 115).

(** Two bytes that are not an image. *)
Definition not_an_image : list byte := [x68; x69].


(** ** What the views answer, and the scripts of the camera *)

(** [cv2.cvtColor(a, cv2.COLOR_BGR2RGB)], and [cv2.COLOR_RGB2BGR], as a
    function of the array. *)
Definition swap_channels (a : ndarray pixel) : ndarray pixel :=
  mk_ndarray (shape0 a) (shape1 a) (map swap_rb (data a)).

(** What [/upload] answers, as a function of the uploaded files. *)
Definition upload_answer {F : Float64} {L : OpenCV}
    (files : gmap string (list byte)) : outcome response :=
  match files !! "file" with
  | None => Returned (json_error "No file uploaded")
  | Some buf =>
      match imdecode buf with
      | Raised e => Raised e
      | Returned None => Returned (json_error "Invalid image")
      | Returned (Some a) => respond (classify (swap_channels a))
      end
  end.

(** The state of the lock after the events, from the state [held]; [None]
    when the lock is acquired while it is held or released while it is
    free. *)
Fixpoint lock_after (held : bool) (evs : list event) : option bool :=
  match evs with
  | [] => Some held
  | EvAcquire :: evs => if held then None else lock_after true evs
  | EvRelease :: evs => if held then lock_after false evs else None
  | _ :: evs => lock_after held evs
  end.

(** The lines printed, in order. *)
Fixpoint printed (evs : list event) : list string :=
  match evs with
  | [] => []
  | EvPrint line :: evs => line :: printed evs
  | _ :: evs => printed evs
  end.

(** The sleeps, in order. *)
Fixpoint slept (evs : list event) : list Q :=
  match evs with
  | [] => []
  | EvSleep s :: evs => s :: slept evs
  | _ :: evs => slept evs
  end.

(** The last frame the camera gave, and the exceptions it raised. *)
Fixpoint last_success (camera : list (outcome (ndarray pixel))) : option (ndarray pixel) :=
  match camera with
  | [] => None
  | r :: camera =>
      match last_success camera with
      | Some a => Some a
      | None => match r with Returned a => Some a | Raised _ => None end
      end
  end.

Fixpoint failures (camera : list (outcome (ndarray pixel))) : list exn :=
  match camera with
  | [] => []
  | Returned _ :: camera => failures camera
  | Raised e :: camera => e :: failures camera
  end.

(** The register refers to the frame [a], or is as it was in [w] when
    there is none. *)
Definition register_holds (a : option (ndarray pixel)) (w w' : world) : Prop :=
  match a with
  | Some a => exists b, last_frame w' = Some b /\ frames w' !! b = Some a
  | None => last_frame w' = last_frame w
  end.

(** ** [app.py] *)

Module App.
Section program.
Context {L : OpenCV}.

(** One turn of the [while True] of the generator [generate_frames]; [r]
    is what [picam2.capture_array()] gives in this turn. *)
Definition generate_frames (r : outcome (ndarray pixel)) : M (turn (list byte)) :=
  frame ← capture_array r;
  buffer ← cv2.imencode frame [];
  let frame := buffer in
  mret (Yield (multipart frame)).
End program.
End App.

(** ** [hsv_picker.py] *)

(** An uploaded file: its name and its bytes. *)
Record upload : Type := mk_upload {
  filename : string;
  content : list byte
}.

(** What reading the JSON body of [/get_color] gives:
    [data.get('image_id')], [int(data.get('x', 0))] and
    [int(data.get('y', 0))].  An identifier that is no string is no key of
    the dictionary, and stands as [None]. *)
Record color_request : Type := mk_color_request {
  image_id : option string;
  x : Z;
  y : Z
}.

(** What the two views of the picker hand to [jsonify]. *)
Inductive picker_response : Type :=
| picker_error (msg : string)
| picker_uploaded (id : string) (image_data : string) (width height : nat)
| picker_color (rgb hsv : pixel) (x y : Z).

Module HsvPicker.
Section program.
Context {L : OpenCV}.

(** [base64.b64encode(buffer).decode('utf-8')] *)
Variable b64encode : list byte -> string.

(** [@app.route('/upload')].  [uuid4] is what [str(uuid.uuid4())] gives in
    this call and [uploaded_images] the dictionary of the module; the
    function returns the answer and the dictionary it leaves.  The whole
    body is in a [try], and the image is stored before it is encoded. *)
Definition upload_file (request_files : gmap string upload) (uuid4 : string)
    (uploaded_images : gmap string (ndarray pixel)) :
    picker_response * gmap string (ndarray pixel) :=
  match request_files !! "file" with
  | None => (picker_error "No file uploaded", uploaded_images)
  | Some file =>
      if decide (filename file = "")
      then (picker_error "No file selected", uploaded_images)
      else
        let file_data := content file in
        match imdecode file_data with
        | Raised e =>
            (picker_error (String.append "Error processing image: " (str e)),
             uploaded_images)
        | Returned None => (picker_error "Invalid image file", uploaded_images)
        | Returned (Some image) =>
            let image_id := uuid4 in
            let uploaded_images := <[image_id := image]> uploaded_images in
            match imencode_jpg [] image with
            | Raised e =>
                (picker_error (String.append "Error processing image: " (str e)),
                 uploaded_images)
            | Returned buffer =>
                (picker_uploaded image_id (b64encode buffer) (shape1 image) (shape0 image),
                 uploaded_images)
            end
        end
  end.

(** [image[y, x]] on an array stored row-major. *)
Definition getitem2 (image : ndarray pixel) (y x : Z) : option pixel :=
  data image !! Z.to_nat (y * Z.of_nat (shape1 image) + x).

(** [@app.route('/get_color')].  [request_json] is what reading the body
    gives, an exception included; the whole body is in a [try]. *)
Definition get_color_at_coordinate (request_json : outcome color_request)
    (uploaded_images : gmap string (ndarray pixel)) : picker_response :=
  match request_json with
  | Raised e => picker_error (String.append "Error getting color: " (str e))
  | Returned req =>
      match image_id req ≫= (fun k => uploaded_images !! k) with
      | None => picker_error "Image not found"
      | Some image =>
          if (x req <? 0) || (Z.of_nat (shape1 image) <=? x req) ||
             (y req <? 0) || (Z.of_nat (shape0 image) <=? y req)
          then picker_error "Coordinates out of bounds"
          else
            match getitem2 image (y req) (x req) with
            | None =>
                picker_error
                  (String.append "Error getting color: " "index is out of bounds")
            | Some bgr_values =>
                let rgb_values := swap_rb bgr_values in
                let hsv_values := rgb2hsv (swap_rb bgr_values) in
                picker_color rgb_values hsv_values (x req) (y req)
            end
      end
  end.
End program.
End HsvPicker.


(** ** Concrete files and images *)

(** A file of one red pixel for the reference decoder: height 1, width 1,
    then B, G, R. *)
Definition red_pixel_file : list byte := [x01; x01; x00; x00; xff].

(** Two by two pixels of four colours, as the decoder gives them (B, G, R):
    blue and green in the first row, red and a pale red in the second. *)
Definition four_colours : ndarray pixel :=
  mk_ndarray 2 2 [(255, 0, 0); (0, 255, 0); (0, 0, 255); (115, 120, 150)].

(** A red pixel beside a green one, and the same two pixels on top of each
    other in the other order. *)
Definition red_green : ndarray pixel := mk_ndarray 1 2 [(255, 0, 0); (0, 255, 0)].
Definition green_red : ndarray pixel := mk_ndarray 2 1 [(0, 255, 0); (255, 0, 0)].

(** The bytes of a buffer as a string, in the place of base64. *)
Definition plain_text (buffer : list byte) : string := string_of_list_byte buffer.

(** ** Running the primitives *)


Lemma extends_refl w : extends w w.
Proof.
  split; try reflexivity. exists []. split; [by rewrite app_nil_r | constructor].
Qed.

Lemma extends_trans w1 w2 w3 : extends w1 w2 -> extends w2 w3 -> extends w1 w3.
Proof.
  intros [f1 p1 l1 r1 k1 (e1 & t1 & a1)] [f2 p2 l2 r2 k2 (e2 & t2 & a2)].
  split; try (etrans; eassumption); try congruence.
  exists (e1 ++ e2). split.
  - by rewrite t2, t1, app_assoc.
  - by apply Forall_app.
Qed.

Lemma extends_frame w w' r a : extends w w' -> frames w !! r = Some a -> frames w' !! r = Some a.
Proof. intros [Hf _ _ _ _ _] Hr. by eapply prefix_lookup_Some. Qed.

Lemma extends_plane w w' r a : extends w w' -> planes w !! r = Some a -> planes w' !! r = Some a.
Proof. intros [_ Hp _ _ _ _] Hr. by eapply prefix_lookup_Some. Qed.

Lemma bind_run {A B} (m : M A) (k : A -> M B) w :
  (m ≫= k) w = match m w with
               | (Returned a, w') => k a w'
               | (Raised e, w') => (Raised e, w')
               end.
Proof. reflexivity. Qed.

Lemma bind_returned {A B} (m : M A) (k : A -> M B) w a w' :
  m w = (Returned a, w') -> (m ≫= k) w = k a w'.
Proof. intros H. by rewrite bind_run, H. Qed.

Lemma bind_raised {A B} (m : M A) (k : A -> M B) w e w' :
  m w = (Raised e, w') -> (m ≫= k) w = (Raised e, w').
Proof. intros H. by rewrite bind_run, H. Qed.

Lemma load_frame_run w r a : frames w !! r = Some a -> load_frame r w = (Returned a, w).
Proof. intros H. unfold load_frame. by rewrite H. Qed.

Lemma load_plane_run w r a : planes w !! r = Some a -> load_plane r w = (Returned a, w).
Proof. intros H. unfold load_plane. by rewrite H. Qed.

Lemma extends_emit_array_op w name n : extends w (emit (EvArrayOp name n) w).
Proof.
  split; try reflexivity. exists [EvArrayOp name n].
  split; [reflexivity | by repeat constructor].
Qed.

Lemma extends_alloc_frame w a : extends w (set_frames (frames w ++ [a]) w).
Proof.
  split; try reflexivity.
  - by apply prefix_app_r.
  - exists []. split; [by rewrite app_nil_r | constructor].
Qed.

Lemma extends_alloc_plane w a : extends w (set_planes (planes w ++ [a]) w).
Proof.
  split; try reflexivity.
  - by apply prefix_app_r.
  - exists []. split; [by rewrite app_nil_r | constructor].
Qed.

Section primitives.
Context {L : OpenCV}.

Lemma cvtColor_run w src code a :
  frames w !! src = Some a ->
  (shape0 a * shape1 a)%nat <> 0%nat ->
  cv2.cvtColor src code w =
    (Returned (length (frames w)),
     set_frames (frames w ++ [mk_ndarray (shape0 a) (shape1 a)
                                (map (cv2.convert_pixel code) (data a))])
       (emit (EvArrayOp "cvtColor" (elems a)) w)).
Proof.
  intros Ha Hne. unfold cv2.cvtColor.
  rewrite (bind_returned _ _ _ _ _ (load_frame_run _ _ _ Ha)).
  apply Nat.eqb_neq in Hne. rewrite bind_run. simpl. by rewrite Hne.
Qed.

Lemma cvtColor_empty w src code a :
  frames w !! src = Some a ->
  (shape0 a * shape1 a)%nat = 0%nat ->
  cv2.cvtColor src code w =
    (Raised (cv2_error "(-215:Assertion failed) !_src.empty() in function 'cvtColor'"),
     emit (EvArrayOp "cvtColor" (elems a)) w).
Proof.
  intros Ha He. unfold cv2.cvtColor.
  rewrite (bind_returned _ _ _ _ _ (load_frame_run _ _ _ Ha)).
  apply Nat.eqb_eq in He. rewrite bind_run. simpl. by rewrite He.
Qed.

Lemma inRange_run w src lower upper a :
  frames w !! src = Some a ->
  cv2.inRange src lower upper w =
    (Returned (length (planes w)),
     set_planes (planes w ++ [range_plane (lower, upper) a])
       (emit (EvArrayOp "inRange" (elems a)) w)).
Proof.
  intros Ha. unfold cv2.inRange.
  by rewrite (bind_returned _ _ _ _ _ (load_frame_run _ _ _ Ha)).
Qed.
End primitives.

Lemma shape_run w r a :
  frames w !! r = Some a -> np.shape r w = (Returned (shape0 a, shape1 a), w).
Proof.
  intros Ha. unfold np.shape.
  by rewrite (bind_returned _ _ _ _ _ (load_frame_run _ _ _ Ha)).
Qed.

Lemma ior_run w a b x y :
  planes w !! a = Some x -> planes w !! b = Some y ->
  shape0 x = shape0 y -> shape1 x = shape1 y ->
  np.ior a b w =
    (Returned tt,
     set_planes (<[a := mk_ndarray (shape0 x) (shape1 x) (zip_with Z.lor (data x) (data y))]>
                   (planes w))
       (emit (EvArrayOp "ior" (elems x)) w)).
Proof.
  intros Ha Hb H0 H1. unfold np.ior.
  rewrite (bind_returned _ _ _ _ _ (load_plane_run _ _ _ Ha)).
  rewrite (bind_returned _ _ _ _ _ (load_plane_run _ _ _ Hb)).
  by rewrite decide_True.
Qed.

Lemma greater0_run w a x :
  planes w !! a = Some x ->
  np.greater0 a w =
    (Returned (length (planes w)),
     set_planes (planes w ++ [mk_ndarray (shape0 x) (shape1 x)
                                (map (fun v => if 0 <? v then 1 else 0) (data x))])
       (emit (EvArrayOp "greater" (elems x)) w)).
Proof.
  intros Ha. unfold np.greater0.
  by rewrite (bind_returned _ _ _ _ _ (load_plane_run _ _ _ Ha)).
Qed.

Lemma sum_run w a x :
  planes w !! a = Some x ->
  np.sum a w = (Returned (foldr Z.add 0 (data x)), emit (EvArrayOp "sum" (elems x)) w).
Proof.
  intros Ha. unfold np.sum.
  by rewrite (bind_returned _ _ _ _ _ (load_plane_run _ _ _ Ha)).
Qed.

Lemma copy_run w a x :
  frames w !! a = Some x ->
  np.copy a w =
    (Returned (length (frames w)),
     set_frames (frames w ++ [x]) (emit (EvArrayOp "copy" (elems x)) w)).
Proof.
  intros Ha. unfold np.copy.
  by rewrite (bind_returned _ _ _ _ _ (load_frame_run _ _ _ Ha)).
Qed.

(** ** The loop of [_mask] *)

Section mask_loop.
Context {F : Float64} {L : OpenCV}.


Lemma mask_loop_run self hsv combined H keys :
  forall ranges w acc,
    ranges_of self keys = Some ranges ->
    frames w !! hsv = Some H ->
    planes w !! combined = Some (mk_ndarray (shape0 H) (shape1 H) acc) ->
    exists w',
      for_ keys (mask_body self hsv combined) w = (Returned tt, w') /\
      frames w' = frames w /\
      (exists extra,
         planes w' =
           <[combined := mk_ndarray (shape0 H) (shape1 H) (foldl (ior_range H) acc ranges)]>
             (planes w) ++ extra) /\
      last_frame w' = last_frame w /\
      frame_ready w' = frame_ready w /\
      lock_held w' = lock_held w /\
      (exists evs, trace w' = trace w ++ evs /\ Forall is_array_op evs).
Proof.
  induction keys as [|k keys IH]; intros ranges w acc Hr Hh Hc.
  - injection Hr as <-. exists w. simpl.
    split; [reflexivity|]. split; [reflexivity|]. split.
    { exists []. rewrite app_nil_r. symmetry. by apply list_insert_id. }
    repeat split; try reflexivity.
    exists []. by rewrite app_nil_r.
  - unfold ranges_of in Hr. simpl in Hr.
    destruct (color_ranges self !! k) as [[lower upper]|] eqn:Hk; [|done].
    simpl in Hr.
    destruct (mapM (fun k => color_ranges self !! k) keys) as [rs|] eqn:Hrs; [|done].
    simpl in Hr. injection Hr as <-.
    set (p := range_plane (lower, upper) H).
    set (w1 := set_planes (planes w ++ [p]) (emit (EvArrayOp "inRange" (elems H)) w)).
    set (acc1 := zip_with Z.lor acc (data p)).
    set (w2 := set_planes
                 (<[combined := mk_ndarray (shape0 H) (shape1 H) acc1]> (planes w1))
                 (emit (EvArrayOp "ior" (length acc)) w1)).
    assert (Hlt : (combined < length (planes w))%nat) by by eapply lookup_lt_Some.
    assert (Hstep : mask_body self hsv combined k w = (Returned tt, w2)).
    { unfold mask_body, getitem. rewrite Hk.
      rewrite bind_run. simpl.
      rewrite (bind_returned _ _ _ _ _ (inRange_run _ _ _ _ _ Hh)).
      fold p. fold w1.
      apply (ior_run w1 combined (length (planes w))
               (mk_ndarray (shape0 H) (shape1 H) acc) p); try reflexivity.
      - subst w1. simpl. by rewrite lookup_app_l.
      - subst w1. simpl. rewrite lookup_app_r by lia.
        by rewrite Nat.sub_diag. }
    destruct (IH rs w2 acc1 Hrs) as (w' & Hrun & Hf & (extra & Hp) & Hl & Hy & Hk' & evs & Ht & Ha).
    { exact Hh. }
    { subst w2 w1. simpl. rewrite insert_app_l by done.
      rewrite lookup_app_l by by rewrite length_insert.
      by apply list_lookup_insert_eq. }
    exists w'. split.
    { simpl. change (bind ?m ?k) with (m ≫= k).
      by rewrite (bind_returned _ _ _ _ _ Hstep). }
    split; [by rewrite Hf|]. split.
    { exists (p :: extra). rewrite Hp. subst w2 w1. simpl.
      rewrite insert_app_l by done.
      rewrite insert_app_l by by rewrite length_insert.
      rewrite list_insert_insert_eq. by rewrite <- app_assoc. }
    split; [by rewrite Hl|]. split; [by rewrite Hy|]. split; [by rewrite Hk'|].
    exists (EvArrayOp "inRange" (elems H) :: EvArrayOp "ior" (length acc) :: evs).
    split.
    + rewrite Ht. subst w2 w1. simpl. by rewrite <- !app_assoc.
    + by repeat constructor.
Qed.
End mask_loop.

Lemma zeros_run w s :
  np.zeros s w =
    (Returned (length (planes w)),
     set_planes (planes w ++ [mk_ndarray s.1 s.2 (replicate (s.1 * s.2) 0)])
       (emit (EvArrayOp "zeros" (s.1 * s.2)) w)).
Proof. reflexivity. Qed.

(** ** Running [_mask] and [calculate] *)

Section classifier_runs.
Context {F : Float64} {L : OpenCV}.


Lemma mask_run self image keys ranges w img :
  ranges_of self keys = Some ranges ->
  frames w !! image = Some img ->
  (shape0 img * shape1 img)%nat <> 0%nat ->
  exists w',
    Optimized._mask self image keys w = (Returned (length (planes w)), w') /\
    extends w w' /\
    planes w' !! length (planes w) = Some (mask_fun ranges img) /\
    frames w' = frames w ++ [hsv_of img].
Proof.
  intros Hr Hi Hne.
  set (w1 := set_frames (frames w ++ [hsv_of img])
               (emit (EvArrayOp "cvtColor" (elems img)) w)).
  set (z := mk_ndarray (shape0 img) (shape1 img)
              (replicate (shape0 img * shape1 img) 0)).
  set (w2 := set_planes (planes w1 ++ [z])
               (emit (EvArrayOp "zeros" (shape0 img * shape1 img)) w1)).
  destruct (mask_loop_run self (length (frames w)) (length (planes w)) (hsv_of img)
              keys ranges w2 (data z) Hr)
    as (w' & Hrun & Hf & (extra & Hp) & Hl & Hy & Hk & evs & Ht & Ha).
  { subst w2 w1. simpl. rewrite lookup_app_r by lia. by rewrite Nat.sub_diag. }
  { subst w2 w1. simpl. rewrite lookup_app_r by lia. by rewrite Nat.sub_diag. }
  exists w'. split; [|split; [|split]]; [| | |by rewrite Hf].
  - unfold Optimized._mask.
    rewrite (bind_returned _ _ _ _ _ (cvtColor_run _ _ COLOR_RGB2HSV _ Hi Hne)).
    change (mk_ndarray (shape0 img) (shape1 img)
              (map (cv2.convert_pixel COLOR_RGB2HSV) (data img))) with (hsv_of img).
    fold w1.
    assert (Hh : frames w1 !! length (frames w) = Some (hsv_of img)).
    { subst w1. simpl. rewrite lookup_app_r by lia. by rewrite Nat.sub_diag. }
    rewrite (bind_returned _ _ _ _ _ (shape_run w1 (length (frames w)) (hsv_of img) Hh)).
    rewrite (bind_returned _ _ _ _ _ (zeros_run w1 _)).
    change (planes w1) with (planes w). simpl fst. simpl snd. fold z. 
    change (set_planes (planes w ++ [z])
              (emit (EvArrayOp "zeros" (shape0 img * shape1 img)) w1)) with w2.
    change (for_ keys _) with
      (for_ keys (mask_body self (length (frames w)) (length (planes w)))).
    by rewrite (bind_returned _ _ _ _ _ Hrun).
  - split.
    + rewrite Hf. subst w2 w1. simpl. by apply prefix_app_r.
    + rewrite Hp. subst w2 w1. simpl. rewrite insert_app_r_alt by lia.
      rewrite <- app_assoc. by apply prefix_app_r.
    + by rewrite Hl.
    + by rewrite Hy.
    + by rewrite Hk.
    + exists (EvArrayOp "cvtColor" (elems img)
                :: EvArrayOp "zeros" (shape0 img * shape1 img) :: evs).
      split; [|by repeat constructor].
      rewrite Ht. subst w2 w1. simpl. by rewrite <- !app_assoc.
  - rewrite Hp. subst w2 w1. simpl. rewrite insert_app_r_alt by lia.
    rewrite Nat.sub_diag. simpl. rewrite <- app_assoc.
    rewrite lookup_app_r by lia. by rewrite Nat.sub_diag.
Qed.

Lemma mask_empty self image keys w img :
  frames w !! image = Some img ->
  (shape0 img * shape1 img)%nat = 0%nat ->
  Optimized._mask self image keys w =
    (Raised empty_error, emit (EvArrayOp "cvtColor" (elems img)) w).
Proof.
  intros Hi He. unfold Optimized._mask.
  by rewrite (bind_raised _ _ _ _ _ (cvtColor_empty _ _ COLOR_RGB2HSV _ Hi He)).
Qed.
End classifier_runs.

Lemma count_run w a x :
  planes w !! a = Some x ->
  exists w',
    (b ← np.greater0 a; np.sum b) w =
      (Returned (foldr Z.add 0 (map (fun v => if 0 <? v then 1 else 0) (data x))), w') /\
    extends w w'.
Proof.
  intros Ha.
  set (g := mk_ndarray (shape0 x) (shape1 x)
              (map (fun v => if 0 <? v then 1 else 0) (data x))).
  set (w1 := set_planes (planes w ++ [g]) (emit (EvArrayOp "greater" (elems x)) w)).
  assert (Hg : planes w1 !! length (planes w) = Some g).
  { subst w1. simpl. rewrite lookup_app_r by lia. by rewrite Nat.sub_diag. }
  exists (emit (EvArrayOp "sum" (elems g)) w1). split.
  - rewrite (bind_returned _ _ _ _ _ (greater0_run _ _ _ Ha)). fold g. fold w1.
    by rewrite (sum_run _ _ _ Hg).
  - eapply extends_trans; [|apply extends_emit_array_op].
    subst w1. eapply extends_trans; [apply extends_emit_array_op|].
    apply (extends_alloc_plane (emit (EvArrayOp "greater" (elems x)) w)).
Qed.

Section calculate_runs.
Context {F : Float64} {L : OpenCV}.


Lemma unripe_keys :
  ranges_of Optimized.UnripePercentageCalculator
    ["unripe_green"; "unripe_whitish"; "unripe_light_red"] = Some unripe_ranges.
Proof. reflexivity. Qed.

Lemma ripe_keys :
  ranges_of Optimized.UnripePercentageCalculator
    ["ripe_red"; "ripe_dark_red"] = Some ripe_ranges.
Proof. reflexivity. Qed.

Lemma transitional_keys :
  ranges_of Optimized.UnripePercentageCalculator
    ["transitional_yellow"; "transitional_light_red"] = Some transitional_ranges.
Proof. reflexivity. Qed.

Lemma calculate_run w image img :
  frames w !! image = Some img ->
  (shape0 img * shape1 img)%nat <> 0%nat ->
  exists w',
    Optimized.calculate Optimized.UnripePercentageCalculator image w =
      (Returned (calculate_fun img), w') /\
    extends w w'.
Proof.
  intros Hi Hne.
  destruct (mask_run _ image _ _ w img unripe_keys Hi Hne) as (w1 & R1 & E1 & P1 & _).
  pose proof (extends_frame _ _ _ _ E1 Hi) as Hi1.
  destruct (mask_run _ image _ _ w1 img ripe_keys Hi1 Hne) as (w2 & R2 & E2 & P2 & _).
  pose proof (extends_frame _ _ _ _ E2 Hi1) as Hi2.
  destruct (mask_run _ image _ _ w2 img transitional_keys Hi2 Hne) as (w3 & R3 & E3 & P3 & _).
  pose proof (extends_frame _ _ _ _ E3 Hi2) as Hi3.
  pose proof (extends_plane _ _ _ _ (extends_trans _ _ _ E2 E3) P1) as P1'.
  destruct (count_run w3 _ _ P1') as (w4 & C1 & E4).
  pose proof (extends_plane _ _ _ _ (extends_trans _ _ _ E3 E4) P2) as P2'.
  destruct (count_run w4 _ _ P2') as (w5 & C2 & E5).
  pose proof (extends_plane _ _ _ _ (extends_trans _ _ _ E4 E5) P3) as P3'.
  destruct (count_run w5 _ _ P3') as (w6 & C3 & E6).
  exists w6. split.
  - unfold Optimized.calculate.
    rewrite (bind_returned _ _ _ _ _ R1).
    rewrite (bind_returned _ _ _ _ _ R2).
    rewrite (bind_returned _ _ _ _ _ R3).
    rewrite (bind_returned _ _ _ _ _ (shape_run _ _ _ Hi3)).
    cbv zeta.
    rewrite (bind_returned _ _ _ _ _ C1).
    rewrite (bind_returned _ _ _ _ _ C2).
    rewrite (bind_returned _ _ _ _ _ C3).
    reflexivity.
  - repeat (eapply extends_trans; [eassumption|]). apply extends_refl.
Qed.

(** [calculate] step by step: the three calls of [_mask], each in the state
    the one before has left, and the masks they leave in the store. *)
Lemma calculate_steps w image img :
  frames w !! image = Some img ->
  (shape0 img * shape1 img)%nat <> 0%nat ->
  exists w1 w2 w3 w',
    Optimized._mask Optimized.UnripePercentageCalculator image
      ["unripe_green"; "unripe_whitish"; "unripe_light_red"] w =
      (Returned (length (planes w)), w1) /\
    Optimized._mask Optimized.UnripePercentageCalculator image
      ["ripe_red"; "ripe_dark_red"] w1 = (Returned (length (planes w1)), w2) /\
    Optimized._mask Optimized.UnripePercentageCalculator image
      ["transitional_yellow"; "transitional_light_red"] w2 =
      (Returned (length (planes w2)), w3) /\
    Optimized.calculate Optimized.UnripePercentageCalculator image w =
      (Returned (calculate_fun img), w') /\
    extends w w1 /\ extends w1 w2 /\ extends w2 w3 /\ extends w3 w' /\
    frames w1 = frames w ++ [hsv_of img] /\
    planes w1 !! length (planes w) = Some (mask_fun unripe_ranges img) /\
    planes w2 !! length (planes w1) = Some (mask_fun ripe_ranges img) /\
    planes w3 !! length (planes w2) = Some (mask_fun transitional_ranges img).
Proof.
  intros Hi Hne.
  destruct (mask_run _ image _ _ w img unripe_keys Hi Hne) as (w1 & R1 & E1 & P1 & F1).
  pose proof (extends_frame _ _ _ _ E1 Hi) as Hi1.
  destruct (mask_run _ image _ _ w1 img ripe_keys Hi1 Hne) as (w2 & R2 & E2 & P2 & _).
  pose proof (extends_frame _ _ _ _ E2 Hi1) as Hi2.
  destruct (mask_run _ image _ _ w2 img transitional_keys Hi2 Hne) as (w3 & R3 & E3 & P3 & _).
  pose proof (extends_frame _ _ _ _ E3 Hi2) as Hi3.
  pose proof (extends_plane _ _ _ _ (extends_trans _ _ _ E2 E3) P1) as P1'.
  destruct (count_run w3 _ _ P1') as (w4 & C1 & E4).
  pose proof (extends_plane _ _ _ _ (extends_trans _ _ _ E3 E4) P2) as P2'.
  destruct (count_run w4 _ _ P2') as (w5 & C2 & E5).
  pose proof (extends_plane _ _ _ _ (extends_trans _ _ _ E4 E5) P3) as P3'.
  destruct (count_run w5 _ _ P3') as (w6 & C3 & E6).
  exists w1, w2, w3, w6.
  split; [exact R1|]. split; [exact R2|]. split; [exact R3|].
  split.
  { unfold Optimized.calculate.
    rewrite (bind_returned _ _ _ _ _ R1).
    rewrite (bind_returned _ _ _ _ _ R2).
    rewrite (bind_returned _ _ _ _ _ R3).
    rewrite (bind_returned _ _ _ _ _ (shape_run _ _ _ Hi3)).
    cbv zeta.
    rewrite (bind_returned _ _ _ _ _ C1).
    rewrite (bind_returned _ _ _ _ _ C2).
    rewrite (bind_returned _ _ _ _ _ C3).
    reflexivity. }
  split; [exact E1|]. split; [exact E2|]. split; [exact E3|].
  split; [exact (extends_trans _ _ _ E4 (extends_trans _ _ _ E5 E6))|].
  split; [exact F1|]. split; [exact P1|]. split; [exact P2 | exact P3].
Qed.

Lemma calculate_empty w image img :
  frames w !! image = Some img ->
  (shape0 img * shape1 img)%nat = 0%nat ->
  Optimized.calculate Optimized.UnripePercentageCalculator image w =
    (Raised empty_error, emit (EvArrayOp "cvtColor" (elems img)) w).
Proof.
  intros Hi He. unfold Optimized.calculate.
  by rewrite (bind_raised _ _ _ _ _ (mask_empty _ _ _ _ _ Hi He)).
Qed.
End calculate_runs.

(** ** The masks, pixel by pixel *)


Lemma in_range_within r p : in_range r.1 r.2 p = true <-> within r p.
Proof.
  unfold in_range, within.
  rewrite !andb_true_iff, !Z.leb_le. tauto.
Qed.

Section masks.
Context {L : OpenCV}.


Lemma ior_range_length H acc r :
  (length acc <= length (data H))%nat -> length (ior_range H acc r) = length acc.
Proof.
  intros Hle. unfold ior_range, range_plane. simpl.
  rewrite length_zip_with, length_map. lia.
Qed.

Lemma fold_ior_length H ranges :
  forall acc, (length acc <= length (data H))%nat ->
    length (foldl (ior_range H) acc ranges) = length acc.
Proof.
  induction ranges as [|r ranges IH]; intros acc Hle; [reflexivity|].
  simpl. rewrite IH; rewrite ior_range_length; auto.
Qed.

Lemma fold_ior_length_le H ranges :
  forall acc, (length (foldl (ior_range H) acc ranges) <= length acc)%nat.
Proof.
  induction ranges as [|r ranges IH]; intros acc; [reflexivity|].
  simpl. etrans; [apply IH|].
  unfold ior_range. rewrite length_zip_with. lia.
Qed.

Lemma fold_ior_lookup H ranges :
  forall acc i a p,
    acc !! i = Some a -> data H !! i = Some p ->
    foldl (ior_range H) acc ranges !! i = Some (mask_bit ranges a p).
Proof.
  induction ranges as [|r ranges IH]; intros acc i a p Ha Hp; [exact Ha|].
  simpl. apply IH; [|exact Hp].
  unfold ior_range, range_plane. simpl.
  rewrite lookup_zip_with, Ha. simpl.
  by rewrite list_lookup_fmap, Hp.
Qed.

Lemma mask_bit_255 ranges p : mask_bit ranges 255 p = 255.
Proof.
  induction ranges as [|r ranges IH]; [reflexivity|].
  unfold mask_bit in *. simpl. unfold range_bit at 2.
  by destruct (in_range r.1 r.2 p).
Qed.

(** The position is 255 when some range holds the pixel and 0 when none
    does. *)
Lemma mask_bit_spec ranges p :
  mask_bit ranges 0 p = if existsb (fun r => in_range r.1 r.2 p) ranges then 255 else 0.
Proof.
  induction ranges as [|r ranges IH]; [reflexivity|].
  unfold mask_bit in *. simpl. unfold range_bit at 2.
  destruct (in_range r.1 r.2 p); simpl.
  - apply mask_bit_255.
  - exact IH.
Qed.

Lemma mask_fun_lookup ranges img i p :
  well_shaped img ->
  data img !! i = Some p ->
  data (mask_fun ranges img) !! i =
    Some (if existsb (fun r => in_range r.1 r.2 (rgb2hsv p)) ranges then 255 else 0).
Proof.
  intros Hw Hp. unfold mask_fun. simpl.
  rewrite <- mask_bit_spec. apply fold_ior_lookup.
  - apply lookup_replicate_2. rewrite <- Hw. by eapply lookup_lt_Some.
  - unfold hsv_of. simpl. by rewrite list_lookup_fmap, Hp.
Qed.

Lemma mask_fun_length ranges img :
  (length (data (mask_fun ranges img)) <= shape0 img * shape1 img)%nat.
Proof.
  unfold mask_fun. simpl. etrans; [apply fold_ior_length_le|].
  by rewrite length_replicate.
Qed.

Lemma mask_fun_length_eq ranges img :
  well_shaped img -> length (data (mask_fun ranges img)) = length (data img).
Proof.
  intros Hw. unfold mask_fun. simpl. rewrite fold_ior_length.
  - by rewrite length_replicate.
  - rewrite length_replicate. unfold hsv_of. simpl. rewrite length_map.
    by rewrite Hw.
Qed.
End masks.

(** ** Counting and percentages *)

Lemma indicator_sum_bounds (l : list Z) :
  0 <= foldr Z.add 0 (map (fun v => if 0 <? v then 1 else 0) l) <= Z.of_nat (length l).
Proof.
  induction l as [|v l IH]; simpl; [lia|].
  destruct (0 <? v); lia.
Qed.

Section percentages.
Context {F : Float64} {L : OpenCV}.

Lemma count_fun_bounds ranges img :
  0 <= count_fun (mask_fun ranges img) <= total_of img.
Proof.
  unfold count_fun, total_of.
  pose proof (indicator_sum_bounds (data (mask_fun ranges img))) as Hb.
  pose proof (mask_fun_length ranges img) as Hl. nia.
Qed.

Context {FL : Float64Laws F}.

Lemma pct_bounds count total :
  0 <= count <= total -> 0 < total ->
  fle (of_int 0) (pct count total) /\ fle (pct count total) (of_int 100).
Proof.
  intros [H0 H1] Ht. unfold pct. split.
  - pose proof (truediv_mono total _ _ Ht H0) as Hd.
    rewrite truediv_zero in Hd by exact Ht.
    pose proof (fmul_100_mono _ _ Hd) as Hm. rewrite fmul_100_zero in Hm.
    pose proof (round2_mono _ _ Hm) as Hr. by rewrite round2_zero in Hr.
  - pose proof (truediv_mono total _ _ Ht H1) as Hd.
    rewrite truediv_self in Hd by exact Ht.
    pose proof (fmul_100_mono _ _ Hd) as Hm. rewrite fmul_100_one in Hm.
    pose proof (round2_mono _ _ Hm) as Hr. by rewrite round2_hundred in Hr.
Qed.
End percentages.

(** ** Exact arithmetic satisfies the laws *)

Lemma round_half_even_bounds x :
  Qfloor x <= round_half_even x <= Qfloor x + 1.
Proof.
  unfold round_half_even.
  destruct (x - inject_Z (Qfloor x) ?= 1 # 2)%Q; [destruct (Z.even (Qfloor x))| |]; lia.
Qed.

Lemma round_half_even_mono x y : (x <= y)%Q -> round_half_even x <= round_half_even y.
Proof.
  intros Hxy.
  pose proof (Qfloor_resp_le x y Hxy) as Hf.
  pose proof (round_half_even_bounds x) as Hx.
  pose proof (round_half_even_bounds y) as Hy.
  destruct (Z.eq_dec (Qfloor x) (Qfloor y)) as [He|Hne]; [|lia].
  unfold round_half_even. rewrite <- He.
  destruct (Qcompare_spec (x - inject_Z (Qfloor x)) (1 # 2)) as [E1|L1|G1];
    destruct (Qcompare_spec (y - inject_Z (Qfloor x)) (1 # 2)) as [E2|L2|G2];
    try destruct (Z.even (Qfloor x)); try lia; exfalso; lra.
Qed.

Lemma Qred_div_mono (d : Z) (x y : Q) :
  0 < d -> (x <= y)%Q -> (Qred (x / inject_Z d) <= Qred (y / inject_Z d))%Q.
Proof.
  intros Hd Hxy. rewrite !Qred_correct. unfold Qdiv.
  apply Qmult_le_compat_r; [exact Hxy|].
  apply Qinv_le_0_compat. change 0%Q with (inject_Z 0).
  rewrite <- Zle_Qle. lia.
Qed.

Lemma Qred_mul_mono (c x y : Q) :
  (0 <= c)%Q -> (x <= y)%Q -> (Qred (x * c) <= Qred (y * c))%Q.
Proof.
  intros Hc Hxy. rewrite !Qred_correct. by apply Qmult_le_compat_r.
Qed.

Lemma round_decimal_2_mono (x y : Q) :
  (x <= y)%Q -> (round_decimal x 2 <= round_decimal y 2)%Q.
Proof.
  intros Hxy. unfold round_decimal.
  change (0 <=? 2) with true. cbv iota.
  set (s := inject_Z (10 ^ Z.abs 2)).
  assert (Hs : (0 <= s)%Q) by by vm_compute.
  rewrite !Qred_correct. unfold Qdiv.
  apply Qmult_le_compat_r; [|by vm_compute].
  rewrite <- Zle_Qle. apply round_half_even_mono.
  by apply Qmult_le_compat_r.
Qed.

Lemma exact_arith_laws : Float64Laws exact_arith.
Proof.
  split.
  - intros d a b Hd Hab. apply Qred_div_mono; [exact Hd|].
    by rewrite <- Zle_Qle.
  - intros d Hd. change (Qred (inject_Z 0 / inject_Z d) = Qred 0).
    apply Qred_complete. unfold Qdiv. apply Qmult_0_l.
  - intros d Hd. change (Qred (inject_Z d / inject_Z d) = Qred 1).
    apply Qred_complete. apply Qmult_inv_r. change 0%Q with (inject_Z 0).
    rewrite inject_Z_injective. lia.
  - intros x y Hxy. apply Qred_mul_mono; [by vm_compute | exact Hxy].
  - reflexivity.
  - reflexivity.
  - intros x y Hxy. by apply round_decimal_2_mono.
  - reflexivity.
  - reflexivity.
Qed.

(** ** The reference conversion yields 8-bit HSV *)

Lemma hdiv_table_ok d : 0 <= d <= 255 -> hdiv_ok d = true.
Proof.
  intros Hd.
  assert (Hall : forallb hdiv_ok (seqZ 0 256) = true) by by vm_compute.
  rewrite forallb_forall in Hall. apply Hall.
  apply list_elem_of_In, elem_of_seqZ. lia.
Qed.

Lemma RGB2HSV_b_range p : pixel_uint8 p -> hsv_in_range (RGB2HSV_b p).
Proof.
  destruct p as [[r g] b]. unfold pixel_uint8, uint8, hsv_in_range. simpl.
  intros (Hr & Hg & Hb).
  set (v := Z.max (Z.max b g) r).
  set (vmin := Z.min (Z.min b g) r).
  assert (Hv : 0 <= vmin <= v /\ v <= 255) by (subst v vmin; lia).
  assert (Hdiff : saturate_uchar (v - vmin) = v - vmin)
    by (unfold saturate_uchar; lia).
  rewrite Hdiff.
  set (diff := v - vmin).
  set (h1 := Z.land _ (g - b) + _).
  assert (Hh1 : h1 <= 5 * diff).
  { subst h1.
    destruct (v =? r) eqn:Er.
    - rewrite Z.land_m1_l. change (Z.lnot (-1)) with 0. rewrite Z.land_0_l.
      subst diff v vmin. lia.
    - change (Z.lnot 0) with (-1). rewrite Z.land_0_l, Z.land_m1_l.
      destruct (v =? g) eqn:Eg.
      + rewrite Z.land_m1_l. change (Z.lnot (-1)) with 0. rewrite Z.land_0_l.
        subst diff v vmin. lia.
      + change (Z.lnot 0) with (-1). rewrite Z.land_0_l, Z.land_m1_l.
        subst diff v vmin. lia. }
  pose proof (hdiv_table_ok diff ltac:(subst diff; lia)) as Hok.
  unfold hdiv_ok in Hok. apply andb_true_iff in Hok as [Hpos Hup].
  apply Z.leb_le in Hpos. apply Z.ltb_lt in Hup.
  set (h2 := Z.shiftr _ hsv_shift).
  assert (Hh2 : h2 <= 180).
  { subst h2. rewrite Z.shiftr_div_pow2 by (unfold hsv_shift; lia).
    apply Z.lt_succ_r. apply Z.div_lt_upper_bound; [by vm_compute|].
    change (2 ^ hsv_shift * Z.succ 180) with (181 * 2 ^ hsv_shift). nia. }
  split; [|split].
  - unfold saturate_uchar. destruct (h2 <? 0) eqn:E; [apply Z.ltb_lt in E|]; lia.
  - match goal with |- 0 <= ?x mod 256 <= 255 =>
      pose proof (Z.mod_pos_bound x 256 ltac:(lia)) end. lia.
  - rewrite Z.mod_small; lia.
Qed.

Lemma reference_cv_laws : OpenCVLaws reference_cv.
Proof. split. exact RGB2HSV_b_range. Qed.

(** ** The classifier *)

Lemma total_of_zero {A} (a : ndarray A) :
  total_of a = 0 <-> (shape0 a * shape1 a)%nat = 0%nat.
Proof. unfold total_of. nia. Qed.

Lemma total_of_pos {A} (a : ndarray A) :
  0 < total_of a <-> (shape0 a * shape1 a)%nat <> 0%nat.
Proof. unfold total_of. nia. Qed.

Lemma ranges_of_elem self keys :
  forall ranges, ranges_of self keys = Some ranges ->
    forall r, r ∈ ranges <-> exists k, k ∈ keys /\ color_ranges self !! k = Some r.
Proof.
  unfold ranges_of.
  induction keys as [|k keys IH]; intros ranges Hr r.
  - injection Hr as <-. split.
    + intros Hin. by apply elem_of_nil in Hin.
    + intros (k & Hin & _). by apply elem_of_nil in Hin.
  - simpl in Hr.
    destruct (color_ranges self !! k) as [r0|] eqn:Hk; [|done]. simpl in Hr.
    destruct (mapM (fun k => color_ranges self !! k) keys) as [rs|] eqn:Hrs; [|done].
    simpl in Hr. injection Hr as <-.
    rewrite elem_of_cons, (IH rs eq_refl r). split.
    + intros [->|(k' & Hin & Hk')].
      * exists k. split; [left | exact Hk].
      * exists k'. split; [by right | exact Hk'].
    + intros (k' & Hin & Hk'). apply elem_of_cons in Hin as [->|Hin].
      * left. congruence.
      * right. by exists k'.
Qed.

Lemma in_group_within ranges p :
  in_group ranges p = true <-> exists r, r ∈ ranges /\ within r p.
Proof.
  unfold in_group. rewrite existsb_exists. split.
  - intros (r & Hin & Hr). exists r. split; [by apply list_elem_of_In|].
    by apply in_range_within.
  - intros (r & Hin & Hr). exists r. split; [by apply list_elem_of_In|].
    by apply in_range_within.
Qed.

Section classifier_frames.
Context {L : OpenCV}.

Lemma mask_fun_data ranges img :
  well_shaped img ->
  data (mask_fun ranges img) =
    map (fun p => if in_group ranges (rgb2hsv p) then 255 else 0) (data img).
Proof.
  intros Hw. apply list_eq. intros i. rewrite list_lookup_fmap.
  destruct (data img !! i) as [p|] eqn:Hp.
  - by rewrite (mask_fun_lookup ranges img i p Hw Hp).
  - apply lookup_ge_None. rewrite mask_fun_length_eq by exact Hw.
    by apply lookup_ge_None.
Qed.

Lemma count_fun_matching ranges img :
  well_shaped img ->
  count_fun (mask_fun ranges img) = Z.of_nat (matching ranges img).
Proof.
  intros Hw. unfold count_fun, matching. rewrite (mask_fun_data _ _ Hw).
  induction (data img) as [|p ps IH]; [reflexivity|].
  simpl. destruct (in_group ranges (rgb2hsv p)); simpl; lia.
Qed.
End classifier_frames.

Section classifier_claims.
Context {F : Float64} {L : OpenCV}.

Lemma calculate_outcome w image img :
  frames w !! image = Some img ->
  exists w',
    Optimized.calculate Optimized.UnripePercentageCalculator image w = (classify img, w') /\
    extends w w'.
Proof.
  intros Hi. unfold classify.
  destruct (shape0 img * shape1 img =? 0)%nat eqn:He.
  - apply Nat.eqb_eq in He. eexists. split; [by apply calculate_empty|].
    apply extends_emit_array_op.
  - apply Nat.eqb_neq in He. by apply calculate_run.
Qed.

Lemma baseline_calculate :
  @WithLocalUpload.calculate F L = @Optimized.calculate F L.
Proof. reflexivity. Qed.

Lemma baseline_calculator :
  WithLocalUpload.UnripePercentageCalculator = Optimized.UnripePercentageCalculator.
Proof. reflexivity. Qed.

(** C10. The calculators of [with_local_upload.py] and of
    [optimized_with_local_upload.py] are the same: the two classes hold the
    same dictionary of colour ranges, and [_mask] and [calculate] of one
    file, run on any frame in any state, give the result and the state that
    those of the other file give. *)
Theorem calculators_agree (self : calculator) (image : nat) (w : world) :
  color_ranges WithLocalUpload.UnripePercentageCalculator =
    color_ranges Optimized.UnripePercentageCalculator /\
  (forall keys,
     WithLocalUpload._mask self image keys w = Optimized._mask self image keys w) /\
  WithLocalUpload.calculate self image w = Optimized.calculate self image w.
Proof.
  split; [reflexivity|]. split; [intros keys; reflexivity|].
  by rewrite baseline_calculate.
Qed.

(** C4. [calculate] is a function of the pixels of its frame: run on a
    frame [img] it gives [classify img], whatever the state; run a second
    time it gives the same again; and a run changes no array that existed
    and none of the globals (it only creates arrays of its own and calls
    the libraries). *)
Theorem calculate_pure (w : world) (image : nat) (img : ndarray pixel) :
  frames w !! image = Some img ->
  exists w1 w2,
    Optimized.calculate Optimized.UnripePercentageCalculator image w = (classify img, w1) /\
    Optimized.calculate Optimized.UnripePercentageCalculator image w1 = (classify img, w2) /\
    extends w w1 /\ extends w1 w2 /\
    frames w2 !! image = Some img.
Proof.
  intros Hi.
  destruct (calculate_outcome w image img Hi) as (w1 & R1 & E1).
  pose proof (extends_frame _ _ _ _ E1 Hi) as Hi1.
  destruct (calculate_outcome w1 image img Hi1) as (w2 & R2 & E2).
  exists w1, w2.
  split; [exact R1|]. split; [exact R2|]. split; [exact E1|]. split; [exact E2|].
  by eapply extends_frame.
Qed.

(** C1, as the code has it.  [calculate] has no check of its own for a
    frame without pixels and there is no [InvalidFrame] error: the call
    fails with the [cv2.error] that the colour conversion at the head of
    [_mask] raises for an empty array.  Nothing is divided, no array is
    created or changed, the globals are as they were, and a later call of
    [calculate] gives what it would have given. *)
Theorem calculate_empty_frame (w : world) (image : nat) (img : ndarray pixel) :
  frames w !! image = Some img ->
  total_of img = 0 ->
  exists w',
    Optimized.calculate Optimized.UnripePercentageCalculator image w =
      (Raised empty_error, w') /\
    frames w' = frames w /\ planes w' = planes w /\
    last_frame w' = last_frame w /\ frame_ready w' = frame_ready w /\
    lock_held w' = lock_held w /\
    trace w' = trace w ++ [EvArrayOp "cvtColor" (elems img)] /\
    forall image2 img2,
      frames w !! image2 = Some img2 ->
      (Optimized.calculate Optimized.UnripePercentageCalculator image2 w').1 = classify img2.
Proof.
  intros Hi Ht. apply total_of_zero in Ht.
  exists (emit (EvArrayOp "cvtColor" (elems img)) w).
  split; [by apply calculate_empty|].
  repeat split.
  intros image2 img2 Hi2.
  destruct (calculate_outcome (emit (EvArrayOp "cvtColor" (elems img)) w) image2 img2 Hi2)
    as (w2 & R2 & _).
  by rewrite R2.
Qed.
End classifier_claims.

Section mask_claim.
Context {F : Float64} {L : OpenCV} {LL : OpenCVLaws L}.

Lemma hsv_of_in_range img :
  frame_uint8 img -> Forall hsv_in_range (data (hsv_of img)).
Proof.
  unfold frame_uint8, hsv_of. simpl. intros Hu.
  apply Forall_fmap. eapply Forall_impl; [exact Hu|].
  intros p Hp. by apply rgb2hsv_range.
Qed.

Lemma group_mask_fun self keys ranges img :
  ranges_of self keys = Some ranges ->
  well_shaped img ->
  group_mask self keys img (mask_fun ranges img).
Proof.
  intros Hr Hw. split; [reflexivity|]. split; [reflexivity|].
  intros i p Hp. eexists. split; [by apply mask_fun_lookup|].
  fold (in_group ranges (rgb2hsv p)).
  split; [destruct (in_group ranges (rgb2hsv p)); auto|].
  transitivity (in_group ranges (rgb2hsv p) = true).
  { destruct (in_group ranges (rgb2hsv p)); split; intros; congruence || lia. }
  rewrite in_group_within. split.
  - intros ([lower upper] & Hin & Hwi).
    apply (ranges_of_elem _ _ _ Hr) in Hin as (k & Hk & Hlk).
    by exists k, lower, upper.
  - intros (k & lower & upper & Hk & Hlk & Hwi).
    exists (lower, upper). split; [|exact Hwi].
    apply (ranges_of_elem _ _ _ Hr). by exists k.
Qed.

(** C2. For a frame with pixels, [calculate] builds the HSV frame (hue
    within [0,180], saturation and value within [0,255]) and three new
    masks, by three calls of [_mask] with the keys of the unripe, the ripe
    and the transitional group.  Each mask has the shape of the frame, and
    a position of it is set exactly when the HSV value of the pixel there
    lies within the bounds, ends included, on all three channels, of at
    least one range that the keys of its group name.  The percentages that
    [calculate] returns are computed from the counts of these three
    masks. *)
Theorem mask_membership (w : world) (image : nat) (img : ndarray pixel) :
  frames w !! image = Some img ->
  well_shaped img ->
  frame_uint8 img ->
  0 < total_of img ->
  exists r w' hsv ua ra ta um rm tm,
    Optimized.calculate Optimized.UnripePercentageCalculator image w = (Returned r, w') /\
    frames w !! hsv = None /\
    frames w' !! hsv = Some (hsv_of img) /\
    data (hsv_of img) = map rgb2hsv (data img) /\
    Forall hsv_in_range (data (hsv_of img)) /\
    (planes w !! ua = None /\ planes w !! ra = None /\ planes w !! ta = None) /\
    (planes w' !! ua = Some um /\ planes w' !! ra = Some rm /\ planes w' !! ta = Some tm) /\
    group_mask Optimized.UnripePercentageCalculator
      ["unripe_green"; "unripe_whitish"; "unripe_light_red"] img um /\
    group_mask Optimized.UnripePercentageCalculator
      ["ripe_red"; "ripe_dark_red"] img rm /\
    group_mask Optimized.UnripePercentageCalculator
      ["transitional_yellow"; "transitional_light_red"] img tm /\
    (unripe_pct r = pct (count_fun um) (total_of img) /\
     ripe_pct r = pct (count_fun rm) (total_of img) /\
     transitional_pct r = pct (count_fun tm) (total_of img)) /\
    exists w1 w2 w3,
      Optimized._mask Optimized.UnripePercentageCalculator image
        ["unripe_green"; "unripe_whitish"; "unripe_light_red"] w = (Returned ua, w1) /\
      Optimized._mask Optimized.UnripePercentageCalculator image
        ["ripe_red"; "ripe_dark_red"] w1 = (Returned ra, w2) /\
      Optimized._mask Optimized.UnripePercentageCalculator image
        ["transitional_yellow"; "transitional_light_red"] w2 = (Returned ta, w3) /\
      planes w1 !! ua = Some um /\ planes w2 !! ra = Some rm /\
      planes w3 !! ta = Some tm /\
      extends w3 w'.
Proof.
  intros Hi Hw Hu Ht. apply total_of_pos in Ht.
  destruct (calculate_steps w image img Hi Ht)
    as (w1 & w2 & w3 & w' & R1 & R2 & R3 & R & E1 & E2 & E3 & E4 & F1 & P1 & P2 & P3).
  pose proof (prefix_length _ _ (ext_planes _ _ E1)) as L1.
  pose proof (prefix_length _ _ (ext_planes _ _ E2)) as L2.
  exists (calculate_fun img), w', (length (frames w)),
    (length (planes w)), (length (planes w1)), (length (planes w2)),
    (mask_fun unripe_ranges img), (mask_fun ripe_ranges img),
    (mask_fun transitional_ranges img).
  split; [exact R|].
  split; [by apply lookup_ge_None|].
  split.
  { apply (extends_frame w1 w').
    - exact (extends_trans _ _ _ E2 (extends_trans _ _ _ E3 E4)).
    - rewrite F1, lookup_app_r by lia. by rewrite Nat.sub_diag. }
  split; [reflexivity|].
  split; [by apply hsv_of_in_range|].
  split.
  { split; [by apply lookup_ge_None|]. split; apply lookup_ge_None; lia. }
  split.
  { split; [exact (extends_plane _ _ _ _
                     (extends_trans _ _ _ E2 (extends_trans _ _ _ E3 E4)) P1)|].
    split; [exact (extends_plane _ _ _ _ (extends_trans _ _ _ E3 E4) P2)|].
    exact (extends_plane _ _ _ _ E4 P3). }
  split; [by apply (group_mask_fun _ _ _ _ unripe_keys)|].
  split; [by apply (group_mask_fun _ _ _ _ ripe_keys)|].
  split; [by apply (group_mask_fun _ _ _ _ transitional_keys)|].
  split; [by repeat split|].
  exists w1, w2, w3.
  split; [exact R1|]. split; [exact R2|]. split; [exact R3|].
  split; [exact P1|]. split; [exact P2|]. split; [exact P3 | exact E4].
Qed.
End mask_claim.

Section percentage_claim.
Context {F : Float64} {FL : Float64Laws F} {L : OpenCV}.

(** C3. For a frame with pixels, [calculate] returns; each of the three
    percentages is the number of pixels that the mask of its group holds,
    divided by the number of pixels, times 100, rounded to two decimals,
    and lies between 0 and 100; [total_pixels] is the height times the
    width. *)
Theorem percentages_bounded (w : world) (image : nat) (img : ndarray pixel) :
  frames w !! image = Some img ->
  well_shaped img ->
  0 < total_of img ->
  exists r w',
    Optimized.calculate Optimized.UnripePercentageCalculator image w = (Returned r, w') /\
    unripe_pct r =
      round_ (fmul (truediv (of_int (Z.of_nat (matching unripe_ranges img)))
                      (of_int (total_of img))) (of_int 100)) 2 /\
    ripe_pct r =
      round_ (fmul (truediv (of_int (Z.of_nat (matching ripe_ranges img)))
                      (of_int (total_of img))) (of_int 100)) 2 /\
    transitional_pct r =
      round_ (fmul (truediv (of_int (Z.of_nat (matching transitional_ranges img)))
                      (of_int (total_of img))) (of_int 100)) 2 /\
    (fle (of_int 0) (unripe_pct r) /\ fle (unripe_pct r) (of_int 100)) /\
    (fle (of_int 0) (ripe_pct r) /\ fle (ripe_pct r) (of_int 100)) /\
    (fle (of_int 0) (transitional_pct r) /\ fle (transitional_pct r) (of_int 100)) /\
    total_pixels r = Z.of_nat (shape0 img) * Z.of_nat (shape1 img).
Proof.
  intros Hi Hw Ht.
  destruct (calculate_run w image img Hi (proj1 (total_of_pos img) Ht)) as (w' & R & _).
  exists (calculate_fun img), w'. split; [exact R|].
  simpl. unfold pct.
  split; [by rewrite count_fun_matching|].
  split; [by rewrite count_fun_matching|].
  split; [by rewrite count_fun_matching|].
  split; [apply pct_bounds; [apply count_fun_bounds | exact Ht]|].
  split; [apply pct_bounds; [apply count_fun_bounds | exact Ht]|].
  split; [apply pct_bounds; [apply count_fun_bounds | exact Ht]|].
  reflexivity.
Qed.
End percentage_claim.

(** ** The capture loop *)

Section pipeline.
Context {F : Float64} {L : OpenCV}.

Lemma optimized_capture_turn r camera w :
  Optimized.capture_loop (r :: camera) w =
    Optimized.capture_loop camera (optimized_turn r w).
Proof. destruct r; reflexivity. Qed.

Lemma optimized_capture_runs camera :
  forall w, Optimized.capture_loop camera w =
    (Returned tt, foldl (fun w r => optimized_turn r w) w camera).
Proof.
  induction camera as [|r camera IH]; intros w; [reflexivity|].
  rewrite optimized_capture_turn. apply IH.
Qed.

Lemma baseline_capture_turn a camera w :
  WithLocalUpload.capture_loop (Returned a :: camera) w =
    WithLocalUpload.capture_loop camera (baseline_turn a w).
Proof. reflexivity. Qed.

Lemma baseline_capture_raises e camera w :
  WithLocalUpload.capture_loop (Raised e :: camera) w = (Raised e, w).
Proof. reflexivity. Qed.

(** ** The views *)

Lemma baseline_process_camera :
  @WithLocalUpload.process_camera F L = @Optimized.process_camera F L.
Proof. reflexivity. Qed.

Lemma baseline_upload_image :
  @WithLocalUpload.upload_image F L = @Optimized.upload_image F L.
Proof. reflexivity. Qed.

Lemma process_camera_none w :
  last_frame w = None ->
  Optimized.process_camera w =
    (Returned (json_error "No frame captured"),
     emit EvRelease (set_lock_held false (emit EvAcquire (set_lock_held true w)))).
Proof.
  intros Hn. unfold Optimized.process_camera.
  rewrite bind_run. unfold with_lock. rewrite bind_run. simpl. by rewrite Hn.
Qed.

Lemma process_camera_some w f img :
  last_frame w = Some f ->
  frames w !! f = Some img ->
  exists w',
    Optimized.process_camera w = (respond (classify img), w') /\
    frames w `prefix_of` frames w' /\
    frames w' !! length (frames w) = Some img /\
    last_frame w' = Some f /\
    lock_held w' = false /\
    exists evs,
      trace w' = trace w ++ [EvAcquire; EvArrayOp "copy" (elems img); EvRelease] ++ evs /\
      Forall is_array_op evs.
Proof.
  intros Hl Hf.
  set (w1 := emit EvAcquire (set_lock_held true w)).
  set (w2 := set_frames (frames w ++ [img]) (emit (EvArrayOp "copy" (elems img)) w1)).
  set (w3 := emit EvRelease (set_lock_held false w2)).
  assert (Hc : frames w3 !! length (frames w) = Some img).
  { subst w3 w2 w1. simpl. rewrite lookup_app_r by lia. by rewrite Nat.sub_diag. }
  destruct (calculate_outcome w3 _ _ Hc) as (w' & R & [Ef Ep El Er Ek (evs & Et & Ea)]).
  exists w'. split.
  - unfold Optimized.process_camera. rewrite bind_run. unfold with_lock.
    rewrite bind_run. simpl. rewrite Hl.
    rewrite (bind_returned _ _ _ _ _ (copy_run w1 f img Hf)).
    simpl. fold w2. fold w3.
    rewrite bind_run, R. unfold respond.
    by destruct (classify img).
  - split.
    { etrans; [|exact Ef]. subst w3 w2 w1. simpl. by apply prefix_app_r. }
    split; [by eapply prefix_lookup_Some|].
    split; [by rewrite El|]. split; [by rewrite Ek|].
    exists evs. split; [|exact Ea].
    rewrite Et. subst w3 w2 w1. simpl. by rewrite <- !app_assoc.
Qed.

Lemma process_camera_answer w :
  (Optimized.process_camera w).1 = process_answer (last_frame w) (frames w).
Proof.
  unfold process_answer.
  destruct (last_frame w) as [f|] eqn:Hl.
  - destruct (frames w !! f) as [img|] eqn:Hf.
    + destruct (process_camera_some w f img Hl Hf) as (w' & R & _). by rewrite R.
    + unfold Optimized.process_camera, with_lock, np.copy, load_frame, gets,
        mbind, M_bind, bind.
      simpl. rewrite Hl. simpl. by rewrite Hf.
  - by rewrite process_camera_none.
Qed.

Lemma upload_image_undecodable files buf w :
  files !! "file" = Some buf ->
  imdecode buf = Returned None ->
  Optimized.upload_image files w =
    (Returned (json_error "Invalid image"), emit (EvArrayOp "imdecode" (length buf)) w).
Proof.
  intros Hf Hd. unfold Optimized.upload_image. rewrite Hf.
  unfold cv2.imdecode_color. rewrite Hd. reflexivity.
Qed.

Lemma upload_image_decoder_raises files buf e w :
  files !! "file" = Some buf ->
  imdecode buf = Raised e ->
  Optimized.upload_image files w =
    (Raised e, emit (EvArrayOp "imdecode" (length buf)) w).
Proof.
  intros Hf Hd. unfold Optimized.upload_image. rewrite Hf.
  unfold cv2.imdecode_color. rewrite Hd. reflexivity.
Qed.

Lemma gen_frames_waits w :
  frame_ready w = false -> Optimized.gen_frames w = (Returned Wait, w).
Proof.
  intros Hr. unfold Optimized.gen_frames. rewrite bind_run.
  unfold gets. by rewrite Hr.
Qed.

Lemma gen_frames_yields w f img :
  frame_ready w = true ->
  last_frame w = Some f ->
  frames w !! f = Some img ->
  Optimized.gen_frames w =
    (match imencode_jpg [(IMWRITE_JPEG_QUALITY, 60); (IMWRITE_JPEG_OPTIMIZE, 1)] img with
     | Returned jpg => Returned (Yield (multipart jpg))
     | Raised e => Raised e
     end,
     emit (EvArrayOp "imencode" (elems img))
       (emit EvRelease
          (set_lock_held false
             (set_frame_ready false (emit EvAcquire (set_lock_held true w)))))).
Proof.
  intros Hr Hl Hf.
  unfold Optimized.gen_frames, with_lock, cv2.imencode, load_frame, gets, modify, log,
    mbind, M_bind, bind, mret, M_ret, ret.
  rewrite Hr. simpl. rewrite Hl. simpl. rewrite Hf. simpl.
  by destruct (imencode_jpg _ img).
Qed.

(** ** Work under the lock *)

Lemma critical_work_array_ops evs :
  Forall is_array_op evs -> critical_work_from false evs = 0%nat.
Proof.
  induction 1 as [|e evs He _ IH]; [reflexivity|].
  destruct e; simpl in *; try done.
Qed.

Lemma new_events_app w w' evs : trace w' = trace w ++ evs -> new_events w w' = evs.
Proof. intros H. unfold new_events. rewrite H. by rewrite drop_app_length. Qed.
End pipeline.

(** ** The register and the views *)

Ltac same_events :=
  apply new_events_app; simpl; rewrite <- ?app_assoc; reflexivity.

Ltac count_events :=
  erewrite new_events_app by (simpl; rewrite <- ?app_assoc; reflexivity);
  reflexivity.

Section pipeline_claims.
Context {F : Float64} {L : OpenCV}.

(** C7. When no frame has been published, [/process] does not wait for
    one: it takes the lock, sees [None], releases the lock and answers with
    the error "No frame captured" instead of a classification.  No array is
    read, created or changed. *)
Theorem process_camera_no_frame (w : world) :
  last_frame w = None ->
  exists w',
    Optimized.process_camera w = (Returned (json_error "No frame captured"), w') /\
    WithLocalUpload.process_camera w = (Returned (json_error "No frame captured"), w') /\
    new_events w w' = [EvAcquire; EvRelease] /\
    frames w' = frames w /\ planes w' = planes w /\
    last_frame w' = None /\ lock_held w' = false.
Proof.
  intros Hn. eexists. split; [by apply process_camera_none|].
  split; [rewrite baseline_process_camera; by apply process_camera_none|].
  split; [same_events|].
  by repeat split.
Qed.

(** C8, evaluated on the two ways in which [cv2.imdecode] fails.  When
    it gives [None], [/upload] of both files answers at once with the error
    "Invalid image": it returns, it has called the decoder once and no
    other library routine, so the classifier has not run.  When it raises,
    as OpenCV does for a buffer without bytes, the exception passes through
    [/upload] of both files: the view does not return and gives no error
    of its own.  [/upload] of [hsv_picker.py], which has its body in a
    [try], answers such a file with an error and does not raise.  In each
    case the store and the globals are as they were. *)
Theorem upload_decoder_failure (files : gmap string (list byte)) (buf : list byte)
    (w : world) :
  files !! "file" = Some buf ->
  let w' := emit (EvArrayOp "imdecode" (length buf)) w in
  (imdecode buf = Returned None ->
     Optimized.upload_image files w = (Returned (json_error "Invalid image"), w') /\
     WithLocalUpload.upload_image files w = (Returned (json_error "Invalid image"), w')) /\
  (forall e, imdecode buf = Raised e ->
     Optimized.upload_image files w = (Raised e, w') /\
     WithLocalUpload.upload_image files w = (Raised e, w') /\
     forall (b64encode : list byte -> string) (name uuid4 : string)
         (uploaded_images : gmap string (ndarray pixel)),
       name <> "" ->
       HsvPicker.upload_file b64encode {["file" := mk_upload name buf]} uuid4
         uploaded_images =
         (picker_error (String.append "Error processing image: " (str e)),
          uploaded_images)) /\
  new_events w w' = [EvArrayOp "imdecode" (length buf)] /\
  frames w' = frames w /\ planes w' = planes w /\
  last_frame w' = last_frame w /\ frame_ready w' = frame_ready w /\
  lock_held w' = lock_held w.
Proof.
  intros Hf w'. split.
  { intros Hd. split; [by apply upload_image_undecodable|].
    rewrite baseline_upload_image. by apply upload_image_undecodable. }
  split.
  { intros e Hd. split; [by apply upload_image_decoder_raises|].
    split; [rewrite baseline_upload_image; by apply upload_image_decoder_raises|].
    intros b64encode name uuid4 uploaded_images Hn.
    unfold HsvPicker.upload_file. rewrite lookup_singleton_eq. simpl.
    rewrite decide_False by exact Hn. by rewrite Hd. }
  split; [same_events|].
  by repeat split.
Qed.

(** C9. After the capture thread has published [A] and then [B], the
    register holds a reference to [B]: [/process] copies [B] and answers
    with the classification of [B].  The register is the one variable
    [last_frame], so it never holds more than one frame.  This holds for
    the capture loops of both files. *)
Theorem latest_frame_wins (A B : ndarray pixel) (w : world) :
  (exists w1 b w2,
     Optimized.capture_loop [Returned A; Returned B] w = (Returned tt, w1) /\
     last_frame w1 = Some b /\
     frames w1 !! b = Some B /\
     Optimized.process_camera w1 = (respond (classify B), w2) /\
     frames w2 !! length (frames w1) = Some B) /\
  (exists w1 b w2,
     WithLocalUpload.capture_loop [Returned A; Returned B] w = (Returned tt, w1) /\
     last_frame w1 = Some b /\
     frames w1 !! b = Some B /\
     WithLocalUpload.process_camera w1 = (respond (classify B), w2) /\
     frames w2 !! length (frames w1) = Some B).
Proof.
  split.
  - set (w1 := optimized_turn (Returned B) (optimized_turn (Returned A) w)).
    assert (Hl : last_frame w1 = Some (S (length (frames w)))).
    { subst w1. simpl. rewrite length_app. simpl. f_equal. lia. }
    assert (Hb : frames w1 !! S (length (frames w)) = Some B).
    { subst w1. simpl. rewrite <- app_assoc. rewrite lookup_app_r by lia.
      by replace (S (length (frames w)) - length (frames w))%nat with 1%nat by lia. }
    destruct (process_camera_some w1 _ B Hl Hb) as (w2 & R & _ & Hc & _).
    exists w1, (S (length (frames w))), w2.
    split; [by rewrite optimized_capture_runs|]. by repeat split.
  - set (w1 := baseline_turn B (baseline_turn A w)).
    assert (Hl : last_frame w1 = Some (S (length (frames w)))).
    { subst w1. simpl. rewrite length_app. simpl. f_equal. lia. }
    assert (Hb : frames w1 !! S (length (frames w)) = Some B).
    { subst w1. simpl. rewrite <- app_assoc. rewrite lookup_app_r by lia.
      by replace (S (length (frames w)) - length (frames w))%nat with 1%nat by lia. }
    destruct (process_camera_some w1 _ B Hl Hb) as (w2 & R & _ & Hc & _).
    exists w1, (S (length (frames w))), w2.
    split; [reflexivity|]. rewrite baseline_process_camera. by repeat split.
Qed.

(** C6, evaluated on both capture loops.  In
    [optimized_with_local_upload.py] a failed acquisition is printed, the
    thread sleeps one millisecond and goes on with the next acquisition;
    the store and the register are untouched, so [/process] answers what it
    answered before; and the loop never ends by an exception.  In
    [with_local_upload.py] the first failed acquisition ends the thread:
    the exception leaves the loop, nothing is printed and nothing is
    retried. *)
Theorem capture_failure (e : exn) (camera : list (outcome (ndarray pixel)))
    (w : world) :
  let w' :=
    emit (EvSleep (1 # 1000))
      (emit (EvPrint (String.append "Capture error: " (str e))) w) in
  Optimized.capture_loop (Raised e :: camera) w = Optimized.capture_loop camera w' /\
  new_events w w' =
    [EvPrint (String.append "Capture error: " (str e)); EvSleep (1 # 1000)] /\
  frames w' = frames w /\ planes w' = planes w /\
  last_frame w' = last_frame w /\ frame_ready w' = frame_ready w /\
  (Optimized.process_camera w').1 = (Optimized.process_camera w).1 /\
  (exists w'', Optimized.capture_loop (Raised e :: camera) w = (Returned tt, w'')) /\
  WithLocalUpload.capture_loop (Raised e :: camera) w = (Raised e, w).
Proof.
  intros w'.
  split; [by rewrite optimized_capture_turn|].
  split; [same_events|].
  do 4 (split; [reflexivity|]).
  split; [by rewrite !process_camera_answer|].
  split; [|reflexivity].
  eexists. apply optimized_capture_runs.
Qed.

(** C5, as the code has it.  Publishing swaps a reference and touches no
    pixel while the lock is held, in both files, and so does the stream
    reader of [optimized_with_local_upload.py]; [/process], in both files,
    copies the whole frame while it holds the lock, so its hold grows with
    the number of pixels. *)
Theorem work_under_lock (w : world) (f : nat) (img a : ndarray pixel) :
  last_frame w = Some f ->
  frames w !! f = Some img ->
  critical_work (new_events w (Optimized.capture_loop [Returned a] w).2) = 0%nat /\
  critical_work (new_events w (WithLocalUpload.capture_loop [Returned a] w).2) = 0%nat /\
  last_frame (Optimized.capture_loop [Returned a] w).2 = Some (length (frames w)) /\
  last_frame (WithLocalUpload.capture_loop [Returned a] w).2 = Some (length (frames w)) /\
  critical_work (new_events w (Optimized.gen_frames w).2) = 0%nat /\
  critical_work (new_events w (Optimized.process_camera w).2) = elems img /\
  critical_work (new_events w (WithLocalUpload.process_camera w).2) = elems img.
Proof.
  intros Hl Hf.
  split; [count_events|].
  split; [count_events|].
  split; [reflexivity|]. split; [reflexivity|].
  split.
  { destruct (frame_ready w) eqn:Hr.
    - rewrite (gen_frames_yields w f img Hr Hl Hf). simpl. count_events.
    - rewrite (gen_frames_waits w Hr). simpl. unfold new_events.
      by rewrite drop_all. }
  destruct (process_camera_some w f img Hl Hf) as (w' & R & _ & _ & _ & _ & evs & Ht & Ha).
  assert (Hw : critical_work (new_events w w') = elems img).
  { rewrite (new_events_app _ _ _ Ht). unfold critical_work. simpl.
    rewrite critical_work_array_ops by exact Ha. lia. }
  split; [|rewrite baseline_process_camera]; by rewrite R.
Qed.
End pipeline_claims.

(** ** The development on concrete frames *)

(** The scenario of the specification: a frame of pure red is all ripe. *)
Example pure_red_is_ripe :
  @classify exact_arith reference_cv (solid 10 10 (255, 0, 0)) =
    Returned (@mk_results exact_arith 0%Q 100%Q 0%Q 100).
Proof. by vm_compute. Qed.

(** The groups overlap: one pixel can count in all three, and then the
    percentages add up to 300. *)
Example groups_overlap :
  @classify exact_arith reference_cv pale_red_frame =
    Returned (@mk_results exact_arith 100%Q 100%Q 100%Q 1).
Proof. by vm_compute. Qed.

(** The stream reader of [with_local_upload.py] converts and encodes the
    frame while it holds the lock. *)
Example baseline_gen_frames_under_lock :
  critical_work
    (new_events (world_with red_frame)
       (@WithLocalUpload.gen_frames reference_cv (world_with red_frame)).2) = 8%nat.
Proof. by vm_compute. Qed.

(** C1, the claim as the specification states it, on the frame without
    pixels: the call ends with OpenCV's [cv2.error], which is not an
    [InvalidFrame] error. *)
Lemma empty_frame_raises_cv2_error :
  (@Optimized.calculate exact_arith reference_cv Optimized.UnripePercentageCalculator
     0%nat (world_with empty_frame)).1 = Raised empty_error /\
  (@WithLocalUpload.calculate exact_arith reference_cv
     WithLocalUpload.UnripePercentageCalculator
     0%nat (world_with empty_frame)).1 = Raised empty_error /\
  empty_error <> InvalidFrame.
Proof. split; [by vm_compute|]. split; [by vm_compute|]. discriminate. Qed.

(** C5, the claim as the specification states it, on a frame of four
    pixels: [/process] reads and writes four pixels while it holds the
    lock, not none. *)
Lemma process_camera_copies_under_lock :
  critical_work
    (new_events (world_with red_frame)
       (@Optimized.process_camera exact_arith reference_cv (world_with red_frame)).2) =
    4%nat /\
  critical_work
    (new_events (world_with red_frame)
       (@WithLocalUpload.process_camera exact_arith reference_cv (world_with red_frame)).2) =
    4%nat.
Proof. split; by vm_compute. Qed.

Lemma calculate_empty_frame_witness :
  (frames (world_with empty_frame) !! 0%nat = Some empty_frame /\
   total_of empty_frame = 0) /\
  exists w',
    @Optimized.calculate exact_arith reference_cv Optimized.UnripePercentageCalculator
      0%nat (world_with empty_frame) = (Raised empty_error, w') /\
    frames w' = [empty_frame] /\
    trace w' = [EvArrayOp "cvtColor" 0].
Proof.
  assert (H1 : frames (world_with empty_frame) !! 0%nat = Some empty_frame)
    by reflexivity.
  assert (H2 : total_of empty_frame = 0) by reflexivity.
  split; [exact (conj H1 H2)|].
  destruct (@calculate_empty_frame exact_arith reference_cv
              (world_with empty_frame) 0%nat empty_frame H1 H2)
    as (w' & R & Hf & _ & _ & _ & _ & Ht & _).
  exists w'. split; [exact R|]. split; [exact Hf | exact Ht].
Defined.

Lemma red_frame_uint8 : frame_uint8 red_frame.
Proof. repeat constructor; simpl; lia. Qed.

Lemma mask_membership_witness :
  (frames (world_with red_frame) !! 0%nat = Some red_frame /\
   well_shaped red_frame /\ frame_uint8 red_frame /\ 0 < total_of red_frame) /\
  exists r w' ra rm,
    @Optimized.calculate exact_arith reference_cv Optimized.UnripePercentageCalculator
      0%nat (world_with red_frame) = (Returned r, w') /\
    Forall hsv_in_range (data (@hsv_of reference_cv red_frame)) /\
    planes w' !! ra = Some rm /\
    ripe_pct r = @pct exact_arith (count_fun rm) (total_of red_frame) /\
    exists v, data rm !! 0%nat = Some v /\ v <> 0.
Proof.
  assert (H1 : frames (world_with red_frame) !! 0%nat = Some red_frame) by reflexivity.
  assert (H2 : well_shaped red_frame) by reflexivity.
  assert (H3 : 0 < total_of red_frame) by reflexivity.
  assert (H4 : within ((0, 50, 50), (10, 255, 255)) (@rgb2hsv reference_cv (255, 0, 0)))
    by (by vm_compute).
  split; [exact (conj H1 (conj H2 (conj red_frame_uint8 H3)))|].
  destruct (@mask_membership exact_arith reference_cv reference_cv_laws
              (world_with red_frame) 0%nat red_frame H1 H2 red_frame_uint8 H3)
    as (r & w' & hsv & ua & ra & ta & um & rm & tm & R & _ & _ & _ & Hh & _ &
        (_ & P & _) & _ & (_ & _ & Hpix) & _ & (_ & Hr & _) & _).
  destruct (Hpix 0%nat (255, 0, 0) eq_refl) as (v & Hv & _ & Hiff).
  exists r, w', ra, rm. split; [exact R|]. split; [exact Hh|]. split; [exact P|].
  split; [exact Hr|].
  exists v. split; [exact Hv|]. apply Hiff.
  exists "ripe_red", (0, 50, 50), (10, 255, 255).
  split; [left|]. split; [reflexivity | exact H4].
Defined.

Lemma percentages_bounded_witness :
  (frames (world_with red_frame) !! 0%nat = Some red_frame /\
   well_shaped red_frame /\ 0 < total_of red_frame) /\
  exists r w',
    @Optimized.calculate exact_arith reference_cv Optimized.UnripePercentageCalculator
      0%nat (world_with red_frame) = (Returned r, w') /\
    (0 <= unripe_pct r <= 100)%Q /\
    (0 <= ripe_pct r <= 100)%Q /\
    (0 <= transitional_pct r <= 100)%Q /\
    total_pixels r = 4.
Proof.
  assert (H1 : frames (world_with red_frame) !! 0%nat = Some red_frame) by reflexivity.
  assert (H2 : well_shaped red_frame) by reflexivity.
  assert (H3 : 0 < total_of red_frame) by reflexivity.
  split; [exact (conj H1 (conj H2 H3))|].
  destruct (@percentages_bounded exact_arith exact_arith_laws reference_cv
              (world_with red_frame) 0%nat red_frame H1 H2 H3)
    as (r & w' & R & _ & _ & _ & Hu & Hr & Ht & Hn).
  exists r, w'. split; [exact R|]. split; [exact Hu|]. split; [exact Hr|].
  split; [exact Ht | exact Hn].
Defined.

Lemma calculate_pure_witness :
  frames (world_with red_frame) !! 0%nat = Some red_frame /\
  exists w1 w2,
    @Optimized.calculate exact_arith reference_cv Optimized.UnripePercentageCalculator
      0%nat (world_with red_frame) = (@classify exact_arith reference_cv red_frame, w1) /\
    @Optimized.calculate exact_arith reference_cv Optimized.UnripePercentageCalculator
      0%nat w1 = (@classify exact_arith reference_cv red_frame, w2) /\
    extends (world_with red_frame) w1 /\ extends w1 w2.
Proof.
  assert (H1 : frames (world_with red_frame) !! 0%nat = Some red_frame) by reflexivity.
  split; [exact H1|].
  destruct (@calculate_pure exact_arith reference_cv (world_with red_frame)
              0%nat red_frame H1)
    as (w1 & w2 & R1 & R2 & E1 & E2 & _).
  exists w1, w2. split; [exact R1|]. split; [exact R2|]. split; [exact E1 | exact E2].
Defined.

Lemma work_under_lock_witness :
  (last_frame (world_with red_frame) = Some 0%nat /\
   frames (world_with red_frame) !! 0%nat = Some red_frame) /\
  critical_work
    (new_events (world_with red_frame)
       (@Optimized.capture_loop [Returned pale_red_frame] (world_with red_frame)).2) =
    0%nat /\
  critical_work
    (new_events (world_with red_frame)
       (@Optimized.gen_frames reference_cv (world_with red_frame)).2) = 0%nat /\
  critical_work
    (new_events (world_with red_frame)
       (@Optimized.process_camera exact_arith reference_cv (world_with red_frame)).2) =
    elems red_frame.
Proof.
  assert (H1 : last_frame (world_with red_frame) = Some 0%nat) by reflexivity.
  assert (H2 : frames (world_with red_frame) !! 0%nat = Some red_frame) by reflexivity.
  split; [exact (conj H1 H2)|].
  destruct (@work_under_lock exact_arith reference_cv (world_with red_frame)
              0%nat red_frame pale_red_frame H1 H2)
    as (P1 & _ & _ & _ & G & C & _).
  split; [exact P1|]. split; [exact G | exact C].
Defined.

Lemma process_camera_no_frame_witness :
  last_frame initial_world = None /\
  exists w',
    @Optimized.process_camera exact_arith reference_cv initial_world =
      (Returned (json_error "No frame captured"), w') /\
    new_events initial_world w' = [EvAcquire; EvRelease].
Proof.
  assert (H1 : last_frame initial_world = None) by reflexivity.
  split; [exact H1|].
  destruct (@process_camera_no_frame exact_arith reference_cv initial_world H1)
    as (w' & R & _ & He & _).
  exists w'. split; [exact R | exact He].
Defined.

Lemma upload_decoder_failure_witness :
  (({["file" := []]} : gmap string (list byte)) !! "file" = Some []) /\
  raw_decode [] =
    Raised (cv2_error "(-215:Assertion failed) !buf.empty() in function 'imdecode_'") /\
  (@Optimized.upload_image exact_arith reference_cv {["file" := []]} initial_world).1 =
    Raised (cv2_error "(-215:Assertion failed) !buf.empty() in function 'imdecode_'") /\
  (@WithLocalUpload.upload_image exact_arith reference_cv {["file" := []]}
     initial_world).1 =
    Raised (cv2_error "(-215:Assertion failed) !buf.empty() in function 'imdecode_'") /\
  (@HsvPicker.upload_file reference_cv plain_text {["file" := mk_upload "empty.jpg" []]}
     "id-1" ∅).1 =
    picker_error
      "Error processing image: (-215:Assertion failed) !buf.empty() in function 'imdecode_'".
Proof.
  assert (H1 : ({["file" := []]} : gmap string (list byte)) !! "file" = Some [])
    by reflexivity.
  assert (H2 : @imdecode reference_cv [] =
               Raised (cv2_error
                 "(-215:Assertion failed) !buf.empty() in function 'imdecode_'"))
    by reflexivity.
  split; [exact H1|]. split; [exact H2|].
  destruct (@upload_decoder_failure exact_arith reference_cv _ [] initial_world H1)
    as (_ & Hraise & _).
  destruct (Hraise _ H2) as (R1 & R2 & R3).
  split; [by rewrite R1|]. split; [by rewrite R2|].
  by rewrite (R3 plain_text "empty.jpg" "id-1" ∅).
Defined.

(** * Further properties of the code *)

(** ** More on [_mask] *)

Lemma for_app {A} (xs ys : list A) (body : A -> M unit) w :
  for_ (xs ++ ys) body w =
    match for_ xs body w with
    | (Returned _, w') => for_ ys body w'
    | (Raised e, w') => (Raised e, w')
    end.
Proof.
  revert w. induction xs as [|x xs IH]; intros w; [reflexivity|].
  simpl. unfold bind. destruct (body x w) as [[[]|e] w1]; [apply IH | reflexivity].
Qed.

Section mask_extras.
Context {L : OpenCV}.

(** [_mask] up to its loop. *)
Lemma mask_unfold self image keys w img :
  frames w !! image = Some img ->
  (shape0 img * shape1 img)%nat <> 0%nat ->
  let w1 := set_frames (frames w ++ [hsv_of img])
              (emit (EvArrayOp "cvtColor" (elems img)) w) in
  let z := mk_ndarray (shape0 img) (shape1 img)
             (replicate (shape0 img * shape1 img) 0) in
  let w2 := set_planes (planes w1 ++ [z])
              (emit (EvArrayOp "zeros" (shape0 img * shape1 img)) w1) in
  Optimized._mask self image keys w =
    (for_ keys (mask_body self (length (frames w)) (length (planes w)))
       ≫= fun _ => mret (length (planes w))) w2.
Proof.
  intros Hi Hne w1 z w2. unfold Optimized._mask.
  rewrite (bind_returned _ _ _ _ _ (cvtColor_run _ _ COLOR_RGB2HSV _ Hi Hne)).
  change (mk_ndarray (shape0 img) (shape1 img)
            (map (cv2.convert_pixel COLOR_RGB2HSV) (data img))) with (hsv_of img).
  fold w1.
  assert (Hh : frames w1 !! length (frames w) = Some (hsv_of img)).
  { subst w1. simpl. rewrite lookup_app_r by lia. by rewrite Nat.sub_diag. }
  rewrite (bind_returned _ _ _ _ _ (shape_run w1 (length (frames w)) (hsv_of img) Hh)).
  rewrite (bind_returned _ _ _ _ _ (zeros_run w1 _)).
  reflexivity.
Qed.

Lemma mask_missing_key_run (self : calculator) (image : nat) (img : ndarray pixel)
    (before after : list string) (k : string) (ranges : list (pixel * pixel))
    (w : world) :
  frames w !! image = Some img ->
  (shape0 img * shape1 img)%nat <> 0%nat ->
  ranges_of self before = Some ranges ->
  color_ranges self !! k = None ->
  exists w',
    Optimized._mask self image (before ++ k :: after) w = (Raised (KeyError k), w') /\
    WithLocalUpload._mask self image (before ++ k :: after) w = (Raised (KeyError k), w') /\
    frames w `prefix_of` frames w' /\
    planes w `prefix_of` planes w' /\
    last_frame w' = last_frame w.
Proof.
  intros Hi Hne Hr Hk.
  pose proof (mask_unfold self image (before ++ k :: after) w img Hi Hne) as Hu.
  cbv zeta in Hu.
  set (w1 := set_frames (frames w ++ [hsv_of img])
               (emit (EvArrayOp "cvtColor" (elems img)) w)) in *.
  set (z := mk_ndarray (shape0 img) (shape1 img)
              (replicate (shape0 img * shape1 img) 0)) in *.
  set (w2 := set_planes (planes w1 ++ [z])
               (emit (EvArrayOp "zeros" (shape0 img * shape1 img)) w1)) in *.
  destruct (mask_loop_run self (length (frames w)) (length (planes w)) (hsv_of img)
              before ranges w2 (data z) Hr)
    as (w' & Hrun & Hf & (extra & Hp) & Hl & _).
  { subst w2 w1. simpl. rewrite lookup_app_r by lia. by rewrite Nat.sub_diag. }
  { subst w2 w1. simpl. rewrite lookup_app_r by lia. by rewrite Nat.sub_diag. }
  assert (Hrun' : for_ (before ++ k :: after)
                    (mask_body self (length (frames w)) (length (planes w))) w2 =
                  (Raised (KeyError k), w')).
  { rewrite for_app, Hrun. simpl. unfold bind, mask_body, getitem. rewrite Hk.
    reflexivity. }
  exists w'. 
  assert (Hm : Optimized._mask self image (before ++ k :: after) w =
               (Raised (KeyError k), w')).
  { rewrite Hu. by rewrite (bind_raised _ _ _ _ _ Hrun'). }
  split; [exact Hm|]. split; [exact Hm|].
  split. { rewrite Hf. subst w2 w1. simpl. by apply prefix_app_r. }
  split. { rewrite Hp. subst w2 w1. simpl. rewrite insert_app_r_alt by lia.
           rewrite <- app_assoc. by apply prefix_app_r. }
  by rewrite Hl.
Qed.

(** X1. A key that the dictionary of the calculator does not hold makes
    [_mask] raise: on a frame with pixels it raises [KeyError] with that
    key, once the keys before it have been used; on a frame without pixels
    it raises the [cv2.error] of [cv2.cvtColor] before any key is looked
    up.  In both cases the arrays that existed and the register are as
    they were. *)
Theorem mask_missing_key (self : calculator) (image : nat) (img : ndarray pixel)
    (before after : list string) (k : string) (ranges : list (pixel * pixel))
    (w : world) :
  frames w !! image = Some img ->
  ranges_of self before = Some ranges ->
  color_ranges self !! k = None ->
  exists w',
    Optimized._mask self image (before ++ k :: after) w =
      (Raised (if (shape0 img * shape1 img =? 0)%nat then empty_error else KeyError k),
       w') /\
    WithLocalUpload._mask self image (before ++ k :: after) w =
      (Raised (if (shape0 img * shape1 img =? 0)%nat then empty_error else KeyError k),
       w') /\
    frames w `prefix_of` frames w' /\
    planes w `prefix_of` planes w' /\
    last_frame w' = last_frame w.
Proof.
  intros Hi Hr Hk.
  destruct (Nat.eqb_spec (shape0 img * shape1 img) 0) as [He|Hne].
  - exists (emit (EvArrayOp "cvtColor" (elems img)) w).
    pose proof (mask_empty self image (before ++ k :: after) w img Hi He) as Hm.
    split; [exact Hm|]. split; [exact Hm|]. by repeat split.
  - exact (mask_missing_key_run self image img before after k ranges w Hi Hne Hr Hk).
Qed.
End mask_extras.

Section mask_shape.
Context {L : OpenCV}.

Lemma ranges_of_app self ks1 ks2 r1 r2 :
  ranges_of self ks1 = Some r1 ->
  ranges_of self ks2 = Some r2 ->
  ranges_of self (ks1 ++ ks2) = Some (r1 ++ r2).
Proof.
  unfold ranges_of. revert r1.
  induction ks1 as [|k ks1 IH]; intros r1 H1 H2.
  - injection H1 as <-. exact H2.
  - simpl in *.
    destruct (color_ranges self !! k) as [r|]; [|done]. simpl in *.
    destruct (mapM (fun k => color_ranges self !! k) ks1) as [rs|]; [|done].
    simpl in H1. injection H1 as <-.
    by rewrite (IH rs eq_refl H2).
Qed.

Lemma in_group_app r1 r2 p : in_group (r1 ++ r2) p = in_group r1 p || in_group r2 p.
Proof. unfold in_group. apply existsb_app. Qed.

(** X2. For keys that the calculator holds and a frame with pixels,
    [_mask] returns a new array of the shape of the frame, with one value
    for each pixel, and every value is 0 or 255; the frame itself is not
    changed, and with no key at all the mask is 0 everywhere.  On a frame
    without pixels [_mask] returns nothing: it raises the [cv2.error] of
    [cv2.cvtColor] and builds no array. *)
Theorem mask_is_binary (self : calculator) (image : nat) (img : ndarray pixel)
    (keys : list string) (ranges : list (pixel * pixel)) (w : world) :
  frames w !! image = Some img ->
  well_shaped img ->
  ranges_of self keys = Some ranges ->
  ((shape0 img * shape1 img)%nat = 0%nat ->
   exists w',
     Optimized._mask self image keys w = (Raised empty_error, w') /\
     frames w' = frames w /\ planes w' = planes w) /\
  ((shape0 img * shape1 img)%nat <> 0%nat ->
   exists mask w' m,
     Optimized._mask self image keys w = (Returned mask, w') /\
     planes w !! mask = None /\
     planes w' !! mask = Some m /\
     frames w' !! image = Some img /\
     shape0 m = shape0 img /\ shape1 m = shape1 img /\
     length (data m) = (shape0 img * shape1 img)%nat /\
     Forall (fun v => v = 0 \/ v = 255) (data m) /\
     (keys = [] -> Forall (fun v => v = 0) (data m))).
Proof.
  intros Hi Hw Hr. split.
  { intros He. eexists. split; [by apply mask_empty|]. by split. }
  intros Hne.
  destruct (mask_run self image keys ranges w img Hr Hi Hne) as (w' & R & E & P & _).
  exists (length (planes w)), w', (mask_fun ranges img).
  split; [exact R|]. split; [by apply lookup_ge_None|]. split; [exact P|].
  split; [by eapply extends_frame|].
  split; [reflexivity|]. split; [reflexivity|].
  split; [by rewrite mask_fun_length_eq|].
  rewrite (mask_fun_data _ _ Hw). split.
  - apply Forall_fmap, Forall_true. intros p. simpl.
    destruct (in_group ranges (rgb2hsv p)); auto.
  - intros ->. injection Hr as <-. apply Forall_fmap, Forall_true. by intros p.
Qed.

(** X3. The mask of two lists of keys put together is the bitwise OR of
    the masks of the two lists, position by position; so the order of the
    keys does not matter. *)
Theorem mask_union (self : calculator) (image : nat) (img : ndarray pixel)
    (keys1 keys2 : list string) (r1 r2 : list (pixel * pixel)) (w : world) :
  frames w !! image = Some img ->
  well_shaped img ->
  (shape0 img * shape1 img)%nat <> 0%nat ->
  ranges_of self keys1 = Some r1 ->
  ranges_of self keys2 = Some r2 ->
  exists c1 w1 m1 c2 w2 m2 c12 w12 m12 c21 w21 m21,
    Optimized._mask self image keys1 w = (Returned c1, w1) /\
    planes w1 !! c1 = Some m1 /\
    Optimized._mask self image keys2 w = (Returned c2, w2) /\
    planes w2 !! c2 = Some m2 /\
    Optimized._mask self image (keys1 ++ keys2) w = (Returned c12, w12) /\
    planes w12 !! c12 = Some m12 /\
    Optimized._mask self image (keys2 ++ keys1) w = (Returned c21, w21) /\
    planes w21 !! c21 = Some m21 /\
    data m12 = zip_with Z.lor (data m1) (data m2) /\
    data m21 = data m12.
Proof.
  intros Hi Hw Hne H1 H2.
  destruct (mask_run self image keys1 r1 w img H1 Hi Hne) as (w1 & R1 & _ & P1 & _).
  destruct (mask_run self image keys2 r2 w img H2 Hi Hne) as (w2 & R2 & _ & P2 & _).
  destruct (mask_run self image _ _ w img (ranges_of_app _ _ _ _ _ H1 H2) Hi Hne)
    as (w12 & R12 & _ & P12 & _).
  destruct (mask_run self image _ _ w img (ranges_of_app _ _ _ _ _ H2 H1) Hi Hne)
    as (w21 & R21 & _ & P21 & _).
  exists (length (planes w)), w1, (mask_fun r1 img),
         (length (planes w)), w2, (mask_fun r2 img),
         (length (planes w)), w12, (mask_fun (r1 ++ r2) img),
         (length (planes w)), w21, (mask_fun (r2 ++ r1) img).
  do 8 (split; [assumption|]).
  rewrite !(mask_fun_data _ _ Hw). split.
  - rewrite zip_with_fmap_l, zip_with_fmap_r, zip_with_diag.
    apply list_fmap_ext. intros i p _. rewrite in_group_app.
    by destruct (in_group r1 (rgb2hsv p)), (in_group r2 (rgb2hsv p)).
  - apply list_fmap_ext. intros i p _. rewrite !in_group_app.
    by rewrite orb_comm.
Qed.
End mask_shape.

(** ** More on [calculate] *)

Lemma filter_length_all {A} (f : A -> bool) (l : list A) :
  Forall (fun a => f a = true) l -> length (List.filter f l) = length l.
Proof.
  induction 1 as [|a l Ha _ IH]; [reflexivity|]. simpl. rewrite Ha. simpl. by rewrite IH.
Qed.

Lemma filter_length_none {A} (f : A -> bool) (l : list A) :
  Forall (fun a => f a = false) l -> length (List.filter f l) = 0%nat.
Proof.
  induction 1 as [|a l Ha _ IH]; [reflexivity|]. simpl. by rewrite Ha.
Qed.

Lemma filter_length_perm {A} (f : A -> bool) (l1 l2 : list A) :
  l1 ≡ₚ l2 -> length (List.filter f l1) = length (List.filter f l2).
Proof.
  induction 1 as [|a l1 l2 _ IH|a b l|l1 l2 l3 _ IH1 _ IH2]; simpl.
  - reflexivity.
  - destruct (f a); simpl; by rewrite IH.
  - destruct (f a), (f b); reflexivity.
  - by rewrite IH1.
Qed.

Section coverage.
Context {F : Float64} {FL : Float64Laws F} {L : OpenCV}.

Lemma pct_full total : 0 < total -> pct total total = of_int 100.
Proof.
  intros Ht. unfold pct.
  by rewrite (truediv_self total Ht), fmul_100_one, round2_hundred.
Qed.

Lemma pct_none total : 0 < total -> pct 0 total = of_int 0.
Proof.
  intros Ht. unfold pct.
  by rewrite (truediv_zero total Ht), fmul_100_zero, round2_zero.
Qed.

Lemma well_shaped_total (img : ndarray pixel) :
  well_shaped img -> Z.of_nat (length (data img)) = total_of img.
Proof. unfold well_shaped, total_of. intros ->. lia. Qed.

(** X4. When every pixel of a frame lies in a range of a group, the
    percentage of that group is exactly 100, and when no pixel does, it is
    exactly 0: for the unripe, the ripe and the transitional group alike. *)
Theorem full_and_no_coverage (w : world) (image : nat) (img : ndarray pixel) :
  frames w !! image = Some img ->
  well_shaped img ->
  0 < total_of img ->
  exists r w',
    Optimized.calculate Optimized.UnripePercentageCalculator image w = (Returned r, w') /\
    (Forall (fun p => in_group unripe_ranges (rgb2hsv p) = true) (data img) ->
     unripe_pct r = of_int 100) /\
    (Forall (fun p => in_group unripe_ranges (rgb2hsv p) = false) (data img) ->
     unripe_pct r = of_int 0) /\
    (Forall (fun p => in_group ripe_ranges (rgb2hsv p) = true) (data img) ->
     ripe_pct r = of_int 100) /\
    (Forall (fun p => in_group ripe_ranges (rgb2hsv p) = false) (data img) ->
     ripe_pct r = of_int 0) /\
    (Forall (fun p => in_group transitional_ranges (rgb2hsv p) = true) (data img) ->
     transitional_pct r = of_int 100) /\
    (Forall (fun p => in_group transitional_ranges (rgb2hsv p) = false) (data img) ->
     transitional_pct r = of_int 0).
Proof.
  intros Hi Hw Ht.
  destruct (calculate_run w image img Hi (proj1 (total_of_pos img) Ht)) as (w' & R & _).
  exists (calculate_fun img), w'. split; [exact R|].
  assert (Hfull : forall ranges,
             Forall (fun p => in_group ranges (rgb2hsv p) = true) (data img) ->
             pct (count_fun (mask_fun ranges img)) (total_of img) = of_int 100).
  { intros ranges Hall. rewrite (count_fun_matching _ _ Hw). unfold matching.
    rewrite (filter_length_all _ _ Hall), (well_shaped_total _ Hw).
    by apply pct_full. }
  assert (Hnone : forall ranges,
             Forall (fun p => in_group ranges (rgb2hsv p) = false) (data img) ->
             pct (count_fun (mask_fun ranges img)) (total_of img) = of_int 0).
  { intros ranges Hall. rewrite (count_fun_matching _ _ Hw). unfold matching.
    rewrite (filter_length_none _ _ Hall). by apply pct_none. }
  simpl. repeat split; auto.
Qed.
End coverage.

Section rearranged.
Context {F : Float64} {L : OpenCV}.

Lemma classify_perm (img1 img2 : ndarray pixel) :
  well_shaped img1 -> well_shaped img2 ->
  data img1 ≡ₚ data img2 ->
  classify img1 = classify img2.
Proof.
  intros H1 H2 Hp.
  assert (Hn : (shape0 img1 * shape1 img1)%nat = (shape0 img2 * shape1 img2)%nat).
  { rewrite <- H1, <- H2. by apply Permutation_length. }
  assert (Ht : total_of img1 = total_of img2).
  { rewrite <- !well_shaped_total by assumption. f_equal. by apply Permutation_length. }
  unfold classify. rewrite Hn.
  destruct (shape0 img2 * shape1 img2 =? 0)%nat; [reflexivity|].
  unfold calculate_fun. rewrite Ht.
  rewrite !(count_fun_matching _ img1 H1), !(count_fun_matching _ img2 H2).
  unfold matching.
  by rewrite !(filter_length_perm _ _ _ Hp).
Qed.

(** X5. The result of [calculate] does not depend on where the pixels are:
    two frames that hold the same pixels, in any arrangement and shape,
    get the same result. *)
Theorem calculate_rearranged (w1 w2 : world) (image1 image2 : nat)
    (img1 img2 : ndarray pixel) :
  frames w1 !! image1 = Some img1 ->
  frames w2 !! image2 = Some img2 ->
  well_shaped img1 -> well_shaped img2 ->
  data img1 ≡ₚ data img2 ->
  (Optimized.calculate Optimized.UnripePercentageCalculator image1 w1).1 =
  (Optimized.calculate Optimized.UnripePercentageCalculator image2 w2).1.
Proof.
  intros Hi1 Hi2 Hw1 Hw2 Hp.
  destruct (calculate_outcome w1 image1 img1 Hi1) as (w1' & R1 & _).
  destruct (calculate_outcome w2 image2 img2 Hi2) as (w2' & R2 & _).
  rewrite R1, R2. simpl. by apply classify_perm.
Qed.
End rearranged.

(** ** The lock, the capture scripts and the streams *)

Lemma lock_after_app h evs1 evs2 :
  lock_after h (evs1 ++ evs2) = lock_after h evs1 ≫= fun h' => lock_after h' evs2.
Proof.
  revert h. induction evs1 as [|e evs1 IH]; intros h; [reflexivity|].
  destruct e, h; simpl; try apply IH; reflexivity.
Qed.

Lemma lock_after_array_ops h evs :
  Forall is_array_op evs -> lock_after h evs = Some h.
Proof.
  induction 1 as [|e evs He _ IH]; [reflexivity|].
  destruct e; simpl in *; try done.
Qed.

Lemma printed_app evs1 evs2 : printed (evs1 ++ evs2) = printed evs1 ++ printed evs2.
Proof.
  induction evs1 as [|e evs1 IH]; [reflexivity|].
  destruct e; simpl; by rewrite ?IH.
Qed.

Lemma slept_app evs1 evs2 : slept (evs1 ++ evs2) = slept evs1 ++ slept evs2.
Proof.
  induction evs1 as [|e evs1 IH]; [reflexivity|].
  destruct e; simpl; by rewrite ?IH.
Qed.

Section scripts.
Context {F : Float64} {L : OpenCV}.

Lemma optimized_capture_script_events camera :
  forall w, exists evs,
    let w' := foldl (fun w r => optimized_turn r w) w camera in
    trace w' = trace w ++ evs /\
    frames w `prefix_of` frames w' /\
    planes w' = planes w /\
    register_holds (last_success camera) w w' /\
    frame_ready w' =
      match last_success camera with Some _ => true | None => frame_ready w end /\
    printed evs = map (fun e => String.append "Capture error: " (str e)) (failures camera) /\
    slept evs = map (fun _ => 1 # 1000)%Q (failures camera) /\
    lock_after false evs = Some false.
Proof.
  induction camera as [|r camera IH]; intros w.
  - exists []. simpl. rewrite app_nil_r. by repeat split.
  - destruct (IH (optimized_turn r w)) as (evs & Ht & Hf & Hp & Hreg & Hrdy & Hpr & Hsl & Hlk).
    cbv zeta in *. simpl foldl.
    set (w' := foldl (fun w r => optimized_turn r w) (optimized_turn r w) camera) in *.
    destruct r as [a|e].
    + exists ([EvAcquire; EvRelease] ++ evs).
      split. { rewrite Ht. simpl. by rewrite <- !app_assoc. }
      split. { etrans; [|exact Hf]. simpl. by apply prefix_app_r. }
      split; [by rewrite Hp|].
      split.
      { simpl. destruct (last_success camera) as [a'|]; [exact Hreg|].
        simpl in Hreg. exists (length (frames w)). split; [exact Hreg|].
        eapply prefix_lookup_Some; [|exact Hf]. simpl.
        rewrite lookup_app_r by lia. by rewrite Nat.sub_diag. }
      split.
      { simpl. rewrite Hrdy. by destruct (last_success camera). }
      split; [simpl; exact Hpr|]. split; [simpl; exact Hsl|].
      simpl. exact Hlk.
    + exists ([EvPrint (String.append "Capture error: " (str e)); EvSleep (1 # 1000)]
                ++ evs).
      split. { rewrite Ht. simpl. by rewrite <- !app_assoc. }
      split; [exact Hf|]. split; [by rewrite Hp|].
      split.
      { simpl. destruct (last_success camera) as [a'|]; exact Hreg. }
      split.
      { simpl. rewrite Hrdy. by destruct (last_success camera). }
      split; [simpl; by rewrite Hpr|]. split; [simpl; by rewrite Hsl|].
      simpl. exact Hlk.
Qed.

(** X6. The capture loop of [optimized_with_local_upload.py] outlives any
    behaviour of the camera: whatever the acquisitions give, it never ends
    by an exception; the register ends on the last frame that was acquired
    (or is as it was when none was) with the event set; every failure is
    printed and followed by a sleep of one millisecond; and the lock is
    released as often as it is taken. *)
Theorem optimized_capture_script (camera : list (outcome (ndarray pixel))) (w : world) :
  exists w',
    Optimized.capture_loop camera w = (Returned tt, w') /\
    frames w `prefix_of` frames w' /\
    planes w' = planes w /\
    register_holds (last_success camera) w w' /\
    frame_ready w' =
      match last_success camera with Some _ => true | None => frame_ready w end /\
    printed (new_events w w') =
      map (fun e => String.append "Capture error: " (str e)) (failures camera) /\
    slept (new_events w w') = map (fun _ => 1 # 1000)%Q (failures camera) /\
    lock_after false (new_events w w') = Some false.
Proof.
  destruct (optimized_capture_script_events camera w)
    as (evs & Ht & Hf & Hp & Hreg & Hrdy & Hpr & Hsl & Hlk).
  eexists. split; [apply optimized_capture_runs|].
  rewrite (new_events_app _ _ _ Ht). by repeat split.
Qed.

Lemma baseline_capture_oks oks :
  forall w, exists w' evs,
    WithLocalUpload.capture_loop (map Returned oks) w = (Returned tt, w') /\
    (forall e rest,
       WithLocalUpload.capture_loop (map Returned oks ++ Raised e :: rest) w =
         (Raised e, w')) /\
    trace w' = trace w ++ evs /\
    frames w' = frames w ++ oks /\
    planes w' = planes w /\
    frame_ready w' = frame_ready w /\
    register_holds (last oks) w w' /\
    printed evs = [] /\
    slept evs = map (fun _ => 3 # 100)%Q oks /\
    lock_after false evs = Some false.
Proof.
  induction oks as [|a oks IH]; intros w.
  - exists w, []. simpl. rewrite !app_nil_r. by repeat split.
  - destruct (IH (baseline_turn a w))
      as (w' & evs & R & Rfail & Ht & Hf & Hp & Hrdy & Hreg & Hpr & Hsl & Hlk).
    exists w', ([EvAcquire; EvRelease; EvSleep (3 # 100)] ++ evs).
    split. { simpl map. by rewrite baseline_capture_turn. }
    split. { intros e rest. simpl map. simpl app. rewrite baseline_capture_turn.
             apply Rfail. }
    split. { rewrite Ht. simpl. by rewrite <- !app_assoc. }
    split. { rewrite Hf. simpl. by rewrite <- app_assoc. }
    split; [by rewrite Hp|]. split; [by rewrite Hrdy|].
    split.
    { destruct oks as [|a' oks].
      - simpl in *. exists (length (frames w)). split; [exact Hreg|].
        rewrite Hf. simpl. rewrite app_nil_r.
        rewrite lookup_app_r by lia. by rewrite Nat.sub_diag.
      - change (last (a :: a' :: oks)) with (last (a' :: oks)).
        destruct (last (a' :: oks)) as [x|] eqn:Hlast; [exact Hreg|].
        by apply last_None in Hlast. }
    split; [simpl; exact Hpr|]. split; [simpl; by rewrite Hsl|].
    simpl. exact Hlk.
Qed.

(** X7. The capture loop of [with_local_upload.py] publishes every frame
    it acquires and sleeps 0.03 s after each; the first exception of the
    camera ends it, whatever would have come after.  The register then
    stays on the last frame acquired before, and [/process] goes on
    answering with the classification of that frame. *)
Theorem baseline_capture_script (oks : list (ndarray pixel)) (e : exn)
    (rest : list (outcome (ndarray pixel))) (w : world) :
  exists w',
    WithLocalUpload.capture_loop (map Returned oks) w = (Returned tt, w') /\
    WithLocalUpload.capture_loop (map Returned oks ++ Raised e :: rest) w =
      (Raised e, w') /\
    frames w' = frames w ++ oks /\
    register_holds (last oks) w w' /\
    printed (new_events w w') = [] /\
    slept (new_events w w') = map (fun _ => 3 # 100)%Q oks /\
    lock_after false (new_events w w') = Some false /\
    match last oks with
    | Some a => (WithLocalUpload.process_camera w').1 = respond (classify a)
    | None => w' = w
    end.
Proof.
  destruct (baseline_capture_oks oks w)
    as (w' & evs & R & Rfail & Ht & Hf & Hp & Hrdy & Hreg & Hpr & Hsl & Hlk).
  exists w'. split; [exact R|]. split; [apply Rfail|]. split; [exact Hf|].
  split; [exact Hreg|].
  rewrite (new_events_app _ _ _ Ht).
  split; [exact Hpr|]. split; [exact Hsl|]. split; [exact Hlk|].
  destruct (last oks) as [a|] eqn:Hlast.
  - destruct Hreg as (b & Hb & Hfb). rewrite baseline_process_camera.
    rewrite process_camera_answer. unfold process_answer. by rewrite Hb, Hfb.
  - apply last_None in Hlast. subst oks. simpl in R. by injection R.
Qed.
End scripts.

(** ** The views and the streams *)

Section views.
Context {F : Float64} {L : OpenCV}.

Lemma classify_shape_empty (a : ndarray pixel) :
  (shape0 a * shape1 a)%nat = 0%nat -> classify a = Raised empty_error.
Proof. intros He. unfold classify. by rewrite (proj2 (Nat.eqb_eq _ _) He). Qed.

Lemma upload_image_run (files : gmap string (list byte)) (w : world) :
  exists w', Optimized.upload_image files w = (upload_answer files, w') /\
             extends w w'.
Proof.
  unfold Optimized.upload_image, upload_answer.
  destruct (files !! "file") as [buf|]; [|exists w; split; [reflexivity|apply extends_refl]].
  unfold cv2.imdecode_color. rewrite !bind_run. simpl.
  set (w0 := emit (EvArrayOp "imdecode" (length buf)) w).
  assert (E0 : extends w w0) by apply extends_emit_array_op.
  destruct (imdecode buf) as [[a|]|e]; simpl.
  - set (w1 := set_frames (frames w0 ++ [a]) w0).
    assert (E1 : extends w0 w1) by apply extends_alloc_frame.
    assert (Ha : frames w1 !! length (frames w) = Some a).
    { subst w1 w0. simpl. rewrite lookup_app_r by lia. by rewrite Nat.sub_diag. }
    destruct (decide ((shape0 a * shape1 a)%nat = 0%nat)) as [He|Hne].
    + exists (emit (EvArrayOp "cvtColor" (elems a)) w1). split.
      * rewrite (bind_raised _ _ _ _ _ (cvtColor_empty w1 _ COLOR_BGR2RGB a Ha He)).
        by rewrite (classify_shape_empty (swap_channels a)).
      * eapply extends_trans; [exact E0|]. eapply extends_trans; [exact E1|].
        apply extends_emit_array_op.
    + rewrite (bind_returned _ _ _ _ _ (cvtColor_run w1 _ COLOR_BGR2RGB a Ha Hne)).
      change (mk_ndarray (shape0 a) (shape1 a)
                (map (cv2.convert_pixel COLOR_BGR2RGB) (data a)))
        with (swap_channels a).
      set (w2 := set_frames (frames w1 ++ [swap_channels a])
                   (emit (EvArrayOp "cvtColor" (elems a)) w1)).
      assert (E2 : extends w1 w2).
      { subst w2. eapply extends_trans; [apply extends_emit_array_op|].
        apply (extends_alloc_frame (emit (EvArrayOp "cvtColor" (elems a)) w1)). }
      assert (Hs : frames w2 !! length (frames w1) = Some (swap_channels a)).
      { subst w2. simpl. rewrite lookup_app_r by lia. by rewrite Nat.sub_diag. }
      destruct (calculate_outcome w2 _ _ Hs) as (w3 & R & E3).
      exists w3. split.
      * rewrite bind_run, R. unfold respond.
        by destruct (classify (swap_channels a)).
      * repeat (eapply extends_trans; [eassumption|]). apply extends_refl.
  - exists w0. by split.
  - exists w0. by split.
Qed.

(** X8. What [/upload] answers depends on the uploaded bytes alone: the
    error "No file uploaded" without a file, the decoder's exception when
    it raises, the error "Invalid image" when it gives [None], and else the
    classification of the decoded image with its red and blue channels
    swapped.  The view never takes the lock and leaves the register and
    every array that existed as they were. *)
Theorem upload_image_answer (files : gmap string (list byte)) (w : world) :
  exists w',
    Optimized.upload_image files w = (upload_answer files, w') /\
    WithLocalUpload.upload_image files w = (upload_answer files, w') /\
    extends w w'.
Proof.
  destruct (upload_image_run files w) as (w' & R & E). exists w'.
  split; [exact R|]. split; [by rewrite baseline_upload_image|exact E].
Qed.

(** X9. [/process] classifies a copy of the published frame: it answers
    with the classification of that frame, the register and the frame are
    as they were afterwards, the array that was classified is a new one,
    and a second request gets the same answer. *)
Theorem process_camera_snapshot (w : world) (f : nat) (img : ndarray pixel) :
  last_frame w = Some f ->
  frames w !! f = Some img ->
  exists w1 w2,
    Optimized.process_camera w = (respond (classify img), w1) /\
    Optimized.process_camera w1 = (respond (classify img), w2) /\
    frames w !! length (frames w) = None /\
    frames w1 !! length (frames w) = Some img /\
    last_frame w2 = Some f /\
    frames w2 !! f = Some img /\
    lock_held w2 = false.
Proof.
  intros Hl Hf.
  destruct (process_camera_some w f img Hl Hf) as (w1 & R1 & P1 & C1 & L1 & _).
  pose proof (prefix_lookup_Some _ _ _ _ Hf P1) as Hf1.
  destruct (process_camera_some w1 f img L1 Hf1) as (w2 & R2 & P2 & _ & L2 & K2 & _).
  exists w1, w2. split; [exact R1|]. split; [exact R2|].
  split; [by apply lookup_ge_None|]. split; [exact C1|]. split; [exact L2|].
  split; [by eapply prefix_lookup_Some|exact K2].
Qed.

(** X10. The two ways into the classifier agree: an upload whose decoded
    image is the published frame with red and blue swapped (the decoder
    gives B, G, R) gets from [/upload] the answer that [/process] gives. *)
Theorem upload_agrees_with_process (files : gmap string (list byte))
    (buf : list byte) (a img : ndarray pixel) (f : nat) (w : world) :
  files !! "file" = Some buf ->
  imdecode buf = Returned (Some a) ->
  swap_channels a = img ->
  last_frame w = Some f ->
  frames w !! f = Some img ->
  (Optimized.upload_image files w).1 = (Optimized.process_camera w).1.
Proof.
  intros Hfile Hd Hs Hl Hf.
  destruct (upload_image_run files w) as (w' & R & _).
  rewrite R, process_camera_answer. simpl.
  unfold upload_answer, process_answer. by rewrite Hfile, Hd, Hl, Hf, Hs.
Qed.
End views.

Section streams.
Context {F : Float64} {L : OpenCV}.

Lemma baseline_gen_frames_none w :
  last_frame w = None ->
  WithLocalUpload.gen_frames w =
    (Returned Continue,
     emit EvRelease (set_lock_held false (emit EvAcquire (set_lock_held true w)))).
Proof.
  intros Hl.
  unfold WithLocalUpload.gen_frames, with_lock, gets, mbind, M_bind, bind.
  simpl. by rewrite Hl.
Qed.

Lemma baseline_gen_frames_some w f img :
  last_frame w = Some f ->
  frames w !! f = Some img ->
  (shape0 img * shape1 img)%nat <> 0%nat ->
  WithLocalUpload.gen_frames w =
    (match imencode_jpg [] (swap_channels img) with
     | Returned jpg => Returned (Yield (multipart jpg))
     | Raised e => Raised e
     end,
     emit EvRelease
       (set_lock_held false
          (emit (EvArrayOp "imencode" (elems img))
             (set_frames (frames w ++ [swap_channels img])
                (emit (EvArrayOp "cvtColor" (elems img))
                   (emit EvAcquire (set_lock_held true w))))))).
Proof.
  intros Hl Hf Hne.
  set (w0 := emit EvAcquire (set_lock_held true w)).
  set (w1 := set_frames (frames w ++ [swap_channels img])
               (emit (EvArrayOp "cvtColor" (elems img)) w0)).
  assert (Hs : frames w1 !! length (frames w) = Some (swap_channels img)).
  { subst w1 w0. simpl. rewrite lookup_app_r by lia. by rewrite Nat.sub_diag. }
  unfold WithLocalUpload.gen_frames. rewrite bind_run. unfold with_lock.
  fold w0. rewrite (bind_returned (gets last_frame) _ w0 (last_frame w) w0 eq_refl).
  rewrite Hl.
  rewrite (bind_returned _ _ _ _ _ (cvtColor_run w0 f COLOR_RGB2BGR img Hf Hne)).
  change (mk_ndarray (shape0 img) (shape1 img)
            (map (cv2.convert_pixel COLOR_RGB2BGR) (data img)))
    with (swap_channels img).
  change (length (frames w0)) with (length (frames w)).
  change (set_frames (frames w0 ++ [swap_channels img])
            (emit (EvArrayOp "cvtColor" (elems img)) w0)) with w1.
  unfold cv2.imencode, load_frame, log, modify, mbind, M_bind, bind, mret, M_ret, ret.
  rewrite Hs. simpl.
  unfold elems, swap_channels. simpl. rewrite length_map.
  by destruct (imencode_jpg [] _).
Qed.

(** X11. The stream of [optimized_with_local_upload.py] follows the
    capture loop: after a frame has been published the next turn yields
    that frame, encoded with quality 60 and framed for the multipart
    answer; the turn after it waits, and it still waits after a failed
    acquisition.  The stream leaves the register and the frames as they
    were. *)
Theorem stream_follows_capture (a : ndarray pixel) (jpg : list byte) (e : exn)
    (w : world) :
  imencode_jpg [(IMWRITE_JPEG_QUALITY, 60); (IMWRITE_JPEG_OPTIMIZE, 1)] a = Returned jpg ->
  exists w1 w2 w3,
    Optimized.capture_loop [Returned a] w = (Returned tt, w1) /\
    Optimized.gen_frames w1 = (Returned (Yield (multipart jpg)), w2) /\
    Optimized.gen_frames w2 = (Returned Wait, w2) /\
    Optimized.capture_loop [Raised e] w2 = (Returned tt, w3) /\
    Optimized.gen_frames w3 = (Returned Wait, w3) /\
    last_frame w3 = last_frame w1 /\
    frames w3 = frames w1.
Proof.
  intros He.
  set (w1 := optimized_turn (Returned a) w).
  assert (Hr : frame_ready w1 = true) by reflexivity.
  assert (Hl : last_frame w1 = Some (length (frames w))) by reflexivity.
  assert (Hf : frames w1 !! length (frames w) = Some a).
  { subst w1. simpl. rewrite lookup_app_r by lia. by rewrite Nat.sub_diag. }
  pose proof (gen_frames_yields w1 _ a Hr Hl Hf) as Hy. rewrite He in Hy.
  eexists w1, _, _.
  split; [reflexivity|]. split; [exact Hy|].
  split; [by apply gen_frames_waits|].
  split; [reflexivity|].
  split; [by apply gen_frames_waits|].
  by split.
Qed.

(** X12. The stream of [with_local_upload.py] does not wait for a new
    frame: with a frame published, every turn yields that frame again,
    with red and blue swapped before it is encoded, and leaves the
    register and the frame as they were. *)
Theorem baseline_stream_repeats (w : world) (f : nat) (img : ndarray pixel)
    (jpg : list byte) :
  last_frame w = Some f ->
  frames w !! f = Some img ->
  (shape0 img * shape1 img)%nat <> 0%nat ->
  imencode_jpg [] (swap_channels img) = Returned jpg ->
  exists w1 w2,
    WithLocalUpload.gen_frames w = (Returned (Yield (multipart jpg)), w1) /\
    WithLocalUpload.gen_frames w1 = (Returned (Yield (multipart jpg)), w2) /\
    last_frame w2 = Some f /\
    frames w2 !! f = Some img /\
    lock_held w2 = false.
Proof.
  intros Hl Hf Hne He.
  pose proof (baseline_gen_frames_some w f img Hl Hf Hne) as R1. rewrite He in R1.
  match type of R1 with _ = (_, ?x) => set (w1 := x) in * end.
  assert (Hl1 : last_frame w1 = Some f) by exact Hl.
  assert (Hf1 : frames w1 !! f = Some img).
  { subst w1. simpl. by apply lookup_app_l_Some. }
  pose proof (baseline_gen_frames_some w1 f img Hl1 Hf1 Hne) as R2. rewrite He in R2.
  eexists w1, _. split; [exact R1|]. split; [exact R2|].
  split; [exact Hl|]. split; [|reflexivity].
  simpl. apply lookup_app_l_Some. exact Hf1.
Qed.

(** X13. Before the first frame the two streams differ: the stream of
    [optimized_with_local_upload.py] waits on the event and does nothing,
    the stream of [with_local_upload.py] takes the lock, finds no frame,
    releases the lock and starts its loop again. *)
Theorem streams_before_first_frame (w : world) :
  last_frame w = None ->
  frame_ready w = false ->
  Optimized.gen_frames w = (Returned Wait, w) /\
  exists w',
    WithLocalUpload.gen_frames w = (Returned Continue, w') /\
    new_events w w' = [EvAcquire; EvRelease] /\
    last_frame w' = None /\ frames w' = frames w /\ lock_held w' = false.
Proof.
  intros Hl Hr. split; [by apply gen_frames_waits|].
  eexists. split; [by apply baseline_gen_frames_none|].
  split; [same_events|]. by repeat split.
Qed.
End streams.

Section lock_discipline.
Context {F : Float64} {L : OpenCV}.

Ltac run_view :=
  unfold Optimized.process_camera, Optimized.gen_frames, WithLocalUpload.gen_frames,
    with_lock, np.copy, cv2.cvtColor, cv2.imencode, load_frame, gets, modify, log,
    raise, mbind, M_bind, bind, mret, M_ret, ret;
  simpl.

Ltac balanced :=
  erewrite new_events_app by (simpl; rewrite <- ?app_assoc; reflexivity);
  reflexivity.

Lemma process_camera_lock w :
  lock_after false (new_events w (Optimized.process_camera w).2) = Some false /\
  lock_held (Optimized.process_camera w).2 = false.
Proof.
  destruct (last_frame w) as [f|] eqn:Hl.
  - destruct (frames w !! f) as [img|] eqn:Hf.
    + destruct (process_camera_some w f img Hl Hf)
        as (w' & R & _ & _ & _ & Hk & evs & Ht & Ha).
      rewrite R. simpl. split; [|exact Hk].
      rewrite (new_events_app _ _ _ Ht). simpl.
      by apply lock_after_array_ops.
    + run_view. rewrite Hl. simpl. rewrite Hf. simpl. split; [balanced|reflexivity].
  - rewrite (process_camera_none w Hl). simpl. split; [balanced|reflexivity].
Qed.

Lemma optimized_gen_frames_lock w :
  lock_after false (new_events w (Optimized.gen_frames w).2) = Some false.
Proof.
  destruct (frame_ready w) eqn:Hr.
  - destruct (last_frame w) as [f|] eqn:Hl.
    + destruct (frames w !! f) as [img|] eqn:Hf.
      * rewrite (gen_frames_yields w f img Hr Hl Hf). simpl. balanced.
      * run_view. rewrite Hr. simpl. rewrite Hl. simpl. rewrite Hf. simpl. balanced.
    + run_view. rewrite Hr. simpl. rewrite Hl. simpl. balanced.
  - rewrite (gen_frames_waits w Hr). simpl. unfold new_events. by rewrite drop_all.
Qed.

Lemma baseline_gen_frames_lock w :
  lock_after false (new_events w (WithLocalUpload.gen_frames w).2) = Some false /\
  lock_held (WithLocalUpload.gen_frames w).2 = false.
Proof.
  destruct (last_frame w) as [f|] eqn:Hl.
  - destruct (frames w !! f) as [img|] eqn:Hf.
    + destruct (decide ((shape0 img * shape1 img)%nat = 0%nat)) as [He|Hne].
      * run_view. rewrite Hl. simpl. rewrite Hf. simpl.
        rewrite (proj2 (Nat.eqb_eq _ _) He). simpl. split; [balanced|reflexivity].
      * rewrite (baseline_gen_frames_some w f img Hl Hf Hne). simpl.
        split; [balanced|reflexivity].
    + run_view. rewrite Hl. simpl. rewrite Hf. simpl. split; [balanced|reflexivity].
  - rewrite (baseline_gen_frames_none w Hl). simpl. split; [balanced|reflexivity].
Qed.

(** X14. Every [with lock:] block gives the lock back: from any state in
    which the lock is free, also one in which the view or the stream ends
    by an exception (a frame without pixels, an encoder that fails), the
    lock operations of [/process] and of the two streams alternate, each
    acquire followed by its release, and [/process] and the stream of
    [with_local_upload.py] end with the lock free. *)
Theorem lock_is_given_back (w : world) :
  lock_held w = false ->
  lock_after false (new_events w (Optimized.process_camera w).2) = Some false /\
  lock_held (Optimized.process_camera w).2 = false /\
  lock_after false (new_events w (WithLocalUpload.process_camera w).2) = Some false /\
  lock_held (WithLocalUpload.process_camera w).2 = false /\
  lock_after false (new_events w (Optimized.gen_frames w).2) = Some false /\
  lock_after false (new_events w (WithLocalUpload.gen_frames w).2) = Some false /\
  lock_held (WithLocalUpload.gen_frames w).2 = false.
Proof.
  intros _.
  destruct (process_camera_lock w) as [H1 H2].
  destruct (baseline_gen_frames_lock w) as [H3 H4].
  change (@WithLocalUpload.process_camera F L) with (@Optimized.process_camera F L).
  repeat split; try assumption. apply optimized_gen_frames_lock.
Qed.
End lock_discipline.

Section app_stream.
Context {L : OpenCV}.

(** X15. The stream of [app.py] acquires and encodes in the same turn: a
    frame is yielded as it was acquired, encoded with the default
    parameters and framed; an exception of the camera or of the encoder
    ends the stream.  The stream takes no lock and touches no register. *)
Theorem app_stream_turn (a : ndarray pixel) (e : exn) (w : world) :
  App.generate_frames (Raised e) w = (Raised e, w) /\
  exists w',
    App.generate_frames (Returned a) w =
      (match imencode_jpg [] a with
       | Returned jpg => Returned (Yield (multipart jpg))
       | Raised e' => Raised e'
       end, w') /\
    extends w w' /\
    frames w' = frames w ++ [a].
Proof.
  split; [reflexivity|].
  eexists. split.
  - unfold App.generate_frames, capture_array, alloc_frame, cv2.imencode, load_frame, log,
      modify, raise, mbind, M_bind, bind, mret, M_ret, ret.
    simpl. rewrite lookup_app_r by lia. rewrite Nat.sub_diag. simpl.
    destruct (imencode_jpg [] a); reflexivity.
  - split; [|reflexivity].
    eapply extends_trans; [apply extends_alloc_frame|].
    apply (extends_emit_array_op (set_frames (frames w ++ [a]) w)).
Qed.
End app_stream.

(** ** The colour picker *)

Section picker.
Context {L : OpenCV}.

Lemma getitem2_in_bounds (image : ndarray pixel) (y x : Z) :
  well_shaped image ->
  0 <= x < Z.of_nat (shape1 image) ->
  0 <= y < Z.of_nat (shape0 image) ->
  exists bgr,
    HsvPicker.getitem2 image y x = Some bgr /\
    data image !! (Z.to_nat y * shape1 image + Z.to_nat x)%nat = Some bgr.
Proof.
  intros Hw Hx Hy. unfold HsvPicker.getitem2.
  replace (Z.to_nat (y * Z.of_nat (shape1 image) + x))
    with (Z.to_nat y * shape1 image + Z.to_nat x)%nat by nia.
  destruct (lookup_lt_is_Some_2 (data image)
              (Z.to_nat y * shape1 image + Z.to_nat x)%nat) as [bgr Hb].
  { rewrite Hw. nia. }
  by exists bgr.
Qed.

Lemma out_of_bounds_iff (image : ndarray pixel) (y x : Z) :
  (x <? 0) || (Z.of_nat (shape1 image) <=? x) ||
  (y <? 0) || (Z.of_nat (shape0 image) <=? y) = false <->
  0 <= x < Z.of_nat (shape1 image) /\ 0 <= y < Z.of_nat (shape0 image).
Proof.
  rewrite !orb_false_iff, !Z.ltb_ge, !Z.leb_gt. lia.
Qed.

Lemma get_color_in_bounds (images : gmap string (ndarray pixel)) (id : string)
    (image : ndarray pixel) (x y : Z) :
  images !! id = Some image ->
  well_shaped image ->
  0 <= x < Z.of_nat (shape1 image) ->
  0 <= y < Z.of_nat (shape0 image) ->
  exists bgr,
    data image !! (Z.to_nat y * shape1 image + Z.to_nat x)%nat = Some bgr /\
    HsvPicker.get_color_at_coordinate (Returned (mk_color_request (Some id) x y)) images =
      picker_color (swap_rb bgr) (rgb2hsv (swap_rb bgr)) x y.
Proof.
  intros Hi Hw Hx Hy.
  destruct (getitem2_in_bounds image y x Hw Hx Hy) as (bgr & Hg & Hd).
  exists bgr. split; [exact Hd|].
  unfold HsvPicker.get_color_at_coordinate. simpl. rewrite Hi.
  rewrite (proj2 (out_of_bounds_iff image y x) (conj Hx Hy)).
  by rewrite Hg.
Qed.

(** X16. A click inside the image gets its colour: for an image in the
    dictionary and coordinates within its width and height, [/get_color]
    answers with the pixel of row [y] and column [x], as R, G, B, with the
    HSV value of that pixel, and with the coordinates. *)
Theorem picker_reads_the_pixel (images : gmap string (ndarray pixel)) (id : string)
    (image : ndarray pixel) (x y : Z) :
  images !! id = Some image ->
  well_shaped image ->
  0 <= x < Z.of_nat (shape1 image) ->
  0 <= y < Z.of_nat (shape0 image) ->
  exists bgr,
    data image !! (Z.to_nat y * shape1 image + Z.to_nat x)%nat = Some bgr /\
    HsvPicker.get_color_at_coordinate (Returned (mk_color_request (Some id) x y)) images =
      picker_color (bgr.2, bgr.1.2, bgr.1.1) (rgb2hsv (bgr.2, bgr.1.2, bgr.1.1)) x y.
Proof. apply get_color_in_bounds. Qed.

(** X17. The bounds check of [/get_color] is exact: for an image in the
    dictionary the answer is the error "Coordinates out of bounds" when,
    and only when, [x] is not within the width or [y] not within the
    height; negative coordinates never reach the array. *)
Theorem picker_bounds_check (images : gmap string (ndarray pixel)) (id : string)
    (image : ndarray pixel) (x y : Z) :
  images !! id = Some image ->
  well_shaped image ->
  HsvPicker.get_color_at_coordinate (Returned (mk_color_request (Some id) x y)) images =
    picker_error "Coordinates out of bounds" <->
  ~ (0 <= x < Z.of_nat (shape1 image) /\ 0 <= y < Z.of_nat (shape0 image)).
Proof.
  intros Hi Hw. split.
  - intros Hr [Hx Hy].
    destruct (get_color_in_bounds images id image x y Hi Hw Hx Hy) as (bgr & _ & Hc).
    congruence.
  - intros Hout. unfold HsvPicker.get_color_at_coordinate. simpl. rewrite Hi.
    destruct ((x <? 0) || (Z.of_nat (shape1 image) <=? x) ||
              (y <? 0) || (Z.of_nat (shape0 image) <=? y)) eqn:Hb; [reflexivity|].
    by apply out_of_bounds_iff in Hb.
Qed.

Variable b64encode : list byte -> string.

Lemma upload_file_keeps (files : gmap string upload) (uuid4 : string)
    (images : gmap string (ndarray pixel)) (id : string) :
  id <> uuid4 ->
  (HsvPicker.upload_file b64encode files uuid4 images).2 !! id = images !! id.
Proof.
  intros Hne. unfold HsvPicker.upload_file.
  destruct (files !! "file") as [file|]; [|reflexivity].
  destruct (decide (filename file = "")); [reflexivity|].
  destruct (imdecode (content file)) as [[image|]|e]; try reflexivity.
  destruct (imencode_jpg [] image); simpl; by rewrite lookup_insert_ne.
Qed.

Lemma upload_file_stores (files : gmap string upload) (uuid4 : string)
    (images : gmap string (ndarray pixel)) (file : upload) (image : ndarray pixel) :
  files !! "file" = Some file ->
  filename file <> "" ->
  imdecode (content file) = Returned (Some image) ->
  (HsvPicker.upload_file b64encode files uuid4 images).2 = <[uuid4 := image]> images /\
  (HsvPicker.upload_file b64encode files uuid4 images).1 =
    match imencode_jpg [] image with
    | Returned buffer =>
        picker_uploaded uuid4 (b64encode buffer) (shape1 image) (shape0 image)
    | Raised e => picker_error (String.append "Error processing image: " (str e))
    end.
Proof.
  intros Hf Hn Hd. unfold HsvPicker.upload_file. rewrite Hf.
  rewrite decide_False by exact Hn. rewrite Hd.
  by destruct (imencode_jpg [] image).
Qed.

(** X18. Upload, then pick: an uploaded file that has a name and decodes
    is stored under the new identifier, also when encoding the preview
    fails afterwards; the answer carries that identifier and the width and
    height of the image; and [/get_color] with that identifier and
    coordinates inside the image reads the pixel of the decoded image. *)
Theorem picker_upload_then_pick (files : gmap string upload) (uuid4 : string)
    (images : gmap string (ndarray pixel)) (file : upload) (image : ndarray pixel)
    (x y : Z) :
  files !! "file" = Some file ->
  filename file <> "" ->
  imdecode (content file) = Returned (Some image) ->
  well_shaped image ->
  0 <= x < Z.of_nat (shape1 image) ->
  0 <= y < Z.of_nat (shape0 image) ->
  let after := HsvPicker.upload_file b64encode files uuid4 images in
  after.2 !! uuid4 = Some image /\
  (forall buffer, imencode_jpg [] image = Returned buffer ->
     after.1 = picker_uploaded uuid4 (b64encode buffer) (shape1 image) (shape0 image)) /\
  exists bgr,
    data image !! (Z.to_nat y * shape1 image + Z.to_nat x)%nat = Some bgr /\
    HsvPicker.get_color_at_coordinate (Returned (mk_color_request (Some uuid4) x y)) after.2 =
      picker_color (bgr.2, bgr.1.2, bgr.1.1) (rgb2hsv (bgr.2, bgr.1.2, bgr.1.1)) x y.
Proof.
  intros Hf Hn Hd Hw Hx Hy after.
  destruct (upload_file_stores files uuid4 images file image Hf Hn Hd) as [Hs Hr].
  fold after in Hs, Hr.
  assert (Hl : after.2 !! uuid4 = Some image) by (rewrite Hs; apply lookup_insert_eq).
  split; [exact Hl|]. split.
  - intros buffer Hb. rewrite Hr. by rewrite Hb.
  - by apply get_color_in_bounds.
Qed.

(** X19. The dictionary of uploaded images only grows: whatever the
    request, [/upload] leaves every entry under another identifier as it
    was, and it leaves the whole dictionary as it was unless the file has
    a name and decodes. *)
Theorem picker_store_grows (files : gmap string upload) (uuid4 : string)
    (images : gmap string (ndarray pixel)) :
  let after := HsvPicker.upload_file b64encode files uuid4 images in
  (forall id, id <> uuid4 -> after.2 !! id = images !! id) /\
  dom images ⊆ dom after.2 /\
  (after.2 = images \/
   exists file image,
     files !! "file" = Some file /\ filename file <> "" /\
     imdecode (content file) = Returned (Some image) /\
     after.2 = <[uuid4 := image]> images).
Proof.
  intros after. split; [intros id Hne; by apply upload_file_keeps|].
  assert (Hcases : after.2 = images \/
            exists file image,
              files !! "file" = Some file /\ filename file <> "" /\
              imdecode (content file) = Returned (Some image) /\
              after.2 = <[uuid4 := image]> images).
  { subst after. unfold HsvPicker.upload_file.
    destruct (files !! "file") as [file|] eqn:Hf; [|by left].
    destruct (decide (filename file = "")) as [|Hn]; [by left|].
    destruct (imdecode (content file)) as [[image|]|e] eqn:Hd; try by left.
    right. exists file, image. repeat split; try done.
    by destruct (imencode_jpg [] image). }
  split; [|exact Hcases].
  destruct Hcases as [->|(file & image & _ & _ & _ & ->)]; [done|].
  rewrite dom_insert_L. set_solver.
Qed.
End picker.

Section picker_and_classifier.
Context {L : OpenCV}.

(** X20. The picker shows what the classifier sees: for an image as the
    decoder gives it (B, G, R), the R, G, B and the HSV value that
    [/get_color] reports for a pixel are the values at the same position
    of the frame and of the HSV frame that [/upload] of the analyser
    classifies, so the pixel is in the mask of a group exactly when the
    reported HSV value lies in a range of the group. *)
Theorem picker_matches_classifier (images : gmap string (ndarray pixel)) (id : string)
    (image : ndarray pixel) (x y : Z) (ranges : list (pixel * pixel)) :
  images !! id = Some image ->
  well_shaped image ->
  0 <= x < Z.of_nat (shape1 image) ->
  0 <= y < Z.of_nat (shape0 image) ->
  exists rgb hsv,
    HsvPicker.get_color_at_coordinate (Returned (mk_color_request (Some id) x y)) images =
      picker_color rgb hsv x y /\
    let i := (Z.to_nat y * shape1 image + Z.to_nat x)%nat in
    data (swap_channels image) !! i = Some rgb /\
    data (hsv_of (swap_channels image)) !! i = Some hsv /\
    data (mask_fun ranges (swap_channels image)) !! i =
      Some (if in_group ranges hsv then 255 else 0).
Proof.
  intros Hi Hw Hx Hy.
  destruct (get_color_in_bounds images id image x y Hi Hw Hx Hy) as (bgr & Hd & Hc).
  exists (swap_rb bgr), (rgb2hsv (swap_rb bgr)). split; [exact Hc|].
  assert (Hs : data (swap_channels image)
                 !! (Z.to_nat y * shape1 image + Z.to_nat x)%nat = Some (swap_rb bgr)).
  { unfold swap_channels. simpl. by rewrite list_lookup_fmap, Hd. }
  cbv zeta. split; [exact Hs|]. split.
  - unfold hsv_of. simpl. rewrite list_lookup_fmap.
    unfold swap_channels in Hs. simpl in Hs. by rewrite Hs.
  - apply (mask_fun_lookup ranges (swap_channels image)); [|exact Hs].
    unfold well_shaped, swap_channels in *. simpl. by rewrite length_map.
Qed.
End picker_and_classifier.

(** ** The further properties on concrete frames *)

Lemma mask_missing_key_witness :
  (frames (world_with red_frame) !! 0%nat = Some red_frame /\
   (shape0 red_frame * shape1 red_frame)%nat <> 0%nat /\
   ranges_of Optimized.UnripePercentageCalculator ["ripe_red"] =
     Some [((0, 50, 50), (10, 255, 255))] /\
   color_ranges Optimized.UnripePercentageCalculator !! "ripe_orange" = None) /\
  exists w',
    @Optimized._mask reference_cv Optimized.UnripePercentageCalculator 0%nat
      ["ripe_red"; "ripe_orange"; "ripe_dark_red"] (world_with red_frame) =
      (Raised (KeyError "ripe_orange"), w') /\
    last_frame w' = Some 0%nat.
Proof.
  assert (H1 : frames (world_with red_frame) !! 0%nat = Some red_frame) by reflexivity.
  assert (H2 : (shape0 red_frame * shape1 red_frame)%nat <> 0%nat) by (simpl; lia).
  assert (H3 : ranges_of Optimized.UnripePercentageCalculator ["ripe_red"] =
               Some [((0, 50, 50), (10, 255, 255))]) by (by vm_compute).
  assert (H4 : color_ranges Optimized.UnripePercentageCalculator !! "ripe_orange" = None)
    by (by vm_compute).
  split; [exact (conj H1 (conj H2 (conj H3 H4)))|].
  destruct (@mask_missing_key reference_cv Optimized.UnripePercentageCalculator 0%nat
              red_frame ["ripe_red"] ["ripe_dark_red"] "ripe_orange" _
              (world_with red_frame) H1 H3 H4)
    as (w' & R & _ & _ & _ & Hl).
  exists w'. split; [exact R | exact Hl].
Defined.

Lemma mask_is_binary_witness :
  (frames (world_with red_frame) !! 0%nat = Some red_frame /\
   well_shaped red_frame /\
   (shape0 red_frame * shape1 red_frame)%nat <> 0%nat /\
   ranges_of Optimized.UnripePercentageCalculator ["ripe_red"; "ripe_dark_red"] =
     Some ripe_ranges) /\
  exists mask w' m,
    @Optimized._mask reference_cv Optimized.UnripePercentageCalculator 0%nat
      ["ripe_red"; "ripe_dark_red"] (world_with red_frame) = (Returned mask, w') /\
    planes w' !! mask = Some m /\
    length (data m) = 4%nat /\
    Forall (fun v => v = 0 \/ v = 255) (data m).
Proof.
  assert (H1 : frames (world_with red_frame) !! 0%nat = Some red_frame) by reflexivity.
  assert (H2 : well_shaped red_frame) by reflexivity.
  assert (H3 : (shape0 red_frame * shape1 red_frame)%nat <> 0%nat) by (simpl; lia).
  assert (H4 : ranges_of Optimized.UnripePercentageCalculator
                 ["ripe_red"; "ripe_dark_red"] = Some ripe_ranges) by (by vm_compute).
  split; [exact (conj H1 (conj H2 (conj H3 H4)))|].
  destruct (proj2 (@mask_is_binary reference_cv Optimized.UnripePercentageCalculator
                     0%nat red_frame _ _ (world_with red_frame) H1 H2 H4) H3)
    as (mask & w' & m & R & _ & P & _ & _ & _ & Hlen & Hbin & _).
  exists mask, w', m. split; [exact R|]. split; [exact P|].
  split; [exact Hlen | exact Hbin].
Defined.

Lemma mask_union_witness :
  (frames (world_with red_frame) !! 0%nat = Some red_frame /\
   well_shaped red_frame /\
   (shape0 red_frame * shape1 red_frame)%nat <> 0%nat /\
   ranges_of Optimized.UnripePercentageCalculator ["ripe_red"] =
     Some [((0, 50, 50), (10, 255, 255))] /\
   ranges_of Optimized.UnripePercentageCalculator ["transitional_yellow"] =
     Some [((15, 50, 50), (30, 255, 255))]) /\
  exists c1 w1 m1 c2 w2 m2 c12 w12 m12,
    @Optimized._mask reference_cv Optimized.UnripePercentageCalculator 0%nat
      ["ripe_red"] (world_with red_frame) = (Returned c1, w1) /\
    planes w1 !! c1 = Some m1 /\
    @Optimized._mask reference_cv Optimized.UnripePercentageCalculator 0%nat
      ["transitional_yellow"] (world_with red_frame) = (Returned c2, w2) /\
    planes w2 !! c2 = Some m2 /\
    @Optimized._mask reference_cv Optimized.UnripePercentageCalculator 0%nat
      ["ripe_red"; "transitional_yellow"] (world_with red_frame) = (Returned c12, w12) /\
    planes w12 !! c12 = Some m12 /\
    data m12 = zip_with Z.lor (data m1) (data m2).
Proof.
  assert (H1 : frames (world_with red_frame) !! 0%nat = Some red_frame) by reflexivity.
  assert (H2 : well_shaped red_frame) by reflexivity.
  assert (H3 : (shape0 red_frame * shape1 red_frame)%nat <> 0%nat) by (simpl; lia).
  assert (H4 : ranges_of Optimized.UnripePercentageCalculator ["ripe_red"] =
               Some [((0, 50, 50), (10, 255, 255))]) by (by vm_compute).
  assert (H5 : ranges_of Optimized.UnripePercentageCalculator ["transitional_yellow"] =
               Some [((15, 50, 50), (30, 255, 255))]) by (by vm_compute).
  split; [exact (conj H1 (conj H2 (conj H3 (conj H4 H5))))|].
  destruct (@mask_union reference_cv Optimized.UnripePercentageCalculator 0%nat
              red_frame ["ripe_red"] ["transitional_yellow"] _ _
              (world_with red_frame) H1 H2 H3 H4 H5)
    as (c1 & w1 & m1 & c2 & w2 & m2 & c12 & w12 & m12 & _ & _ & _ &
        R1 & P1 & R2 & P2 & R12 & P12 & _ & _ & Hor & _).
  exists c1, w1, m1, c2, w2, m2, c12, w12, m12.
  split; [exact R1|]. split; [exact P1|]. split; [exact R2|]. split; [exact P2|].
  split; [exact R12|]. split; [exact P12 | exact Hor].
Defined.

Lemma red_frame_all_ripe :
  Forall (fun p => in_group ripe_ranges (@rgb2hsv reference_cv p) = true) (data red_frame).
Proof. repeat constructor. Qed.

Lemma red_frame_none_unripe :
  Forall (fun p => in_group unripe_ranges (@rgb2hsv reference_cv p) = false) (data red_frame).
Proof. repeat constructor. Qed.

Lemma full_and_no_coverage_witness :
  (frames (world_with red_frame) !! 0%nat = Some red_frame /\
   well_shaped red_frame /\ 0 < total_of red_frame) /\
  exists r w',
    @Optimized.calculate exact_arith reference_cv Optimized.UnripePercentageCalculator
      0%nat (world_with red_frame) = (Returned r, w') /\
    ripe_pct r = @of_int exact_arith 100 /\
    unripe_pct r = @of_int exact_arith 0.
Proof.
  assert (H1 : frames (world_with red_frame) !! 0%nat = Some red_frame) by reflexivity.
  assert (H2 : well_shaped red_frame) by reflexivity.
  assert (H3 : 0 < total_of red_frame) by reflexivity.
  split; [exact (conj H1 (conj H2 H3))|].
  destruct (@full_and_no_coverage exact_arith exact_arith_laws reference_cv
              (world_with red_frame) 0%nat red_frame H1 H2 H3)
    as (r & w' & R & _ & Hu0 & Hr100 & _).
  exists r, w'. split; [exact R|].
  split; [exact (Hr100 red_frame_all_ripe) | exact (Hu0 red_frame_none_unripe)].
Defined.

Lemma calculate_rearranged_witness :
  (frames (world_with red_green) !! 0%nat = Some red_green /\
   frames (world_with green_red) !! 0%nat = Some green_red /\
   well_shaped red_green /\ well_shaped green_red /\
   data red_green ≡ₚ data green_red) /\
  (@Optimized.calculate exact_arith reference_cv Optimized.UnripePercentageCalculator
     0%nat (world_with red_green)).1 =
  (@Optimized.calculate exact_arith reference_cv Optimized.UnripePercentageCalculator
     0%nat (world_with green_red)).1.
Proof.
  assert (H1 : frames (world_with red_green) !! 0%nat = Some red_green) by reflexivity.
  assert (H2 : frames (world_with green_red) !! 0%nat = Some green_red) by reflexivity.
  assert (H3 : well_shaped red_green) by reflexivity.
  assert (H4 : well_shaped green_red) by reflexivity.
  assert (H5 : data red_green ≡ₚ data green_red) by apply perm_swap.
  split; [exact (conj H1 (conj H2 (conj H3 (conj H4 H5))))|].
  exact (@calculate_rearranged exact_arith reference_cv _ _ 0%nat 0%nat
           red_green green_red H1 H2 H3 H4 H5).
Defined.

Lemma process_camera_snapshot_witness :
  (last_frame (world_with red_frame) = Some 0%nat /\
   frames (world_with red_frame) !! 0%nat = Some red_frame) /\
  exists w1 w2,
    @Optimized.process_camera exact_arith reference_cv (world_with red_frame) =
      (respond (@classify exact_arith reference_cv red_frame), w1) /\
    @Optimized.process_camera exact_arith reference_cv w1 =
      (respond (@classify exact_arith reference_cv red_frame), w2) /\
    frames w1 !! 1%nat = Some red_frame /\
    last_frame w2 = Some 0%nat /\
    frames w2 !! 0%nat = Some red_frame.
Proof.
  assert (H1 : last_frame (world_with red_frame) = Some 0%nat) by reflexivity.
  assert (H2 : frames (world_with red_frame) !! 0%nat = Some red_frame) by reflexivity.
  split; [exact (conj H1 H2)|].
  destruct (@process_camera_snapshot exact_arith reference_cv (world_with red_frame)
              0%nat red_frame H1 H2)
    as (w1 & w2 & R1 & R2 & _ & C & Hl & Hf & _).
  exists w1, w2. split; [exact R1|]. split; [exact R2|]. split; [exact C|].
  split; [exact Hl | exact Hf].
Defined.

Lemma upload_agrees_with_process_witness :
  (({["file" := red_pixel_file]} : gmap string (list byte)) !! "file" =
     Some red_pixel_file /\
   raw_decode red_pixel_file = Returned (Some (solid 1 1 (0, 0, 255))) /\
   swap_channels (solid 1 1 (0, 0, 255)) = solid 1 1 (255, 0, 0) /\
   last_frame (world_with (solid 1 1 (255, 0, 0))) = Some 0%nat /\
   frames (world_with (solid 1 1 (255, 0, 0))) !! 0%nat = Some (solid 1 1 (255, 0, 0))) /\
  (@Optimized.upload_image exact_arith reference_cv {["file" := red_pixel_file]}
     (world_with (solid 1 1 (255, 0, 0)))).1 =
  (@Optimized.process_camera exact_arith reference_cv
     (world_with (solid 1 1 (255, 0, 0)))).1.
Proof.
  assert (H1 : ({["file" := red_pixel_file]} : gmap string (list byte)) !! "file" =
               Some red_pixel_file) by reflexivity.
  assert (H2 : @imdecode reference_cv red_pixel_file =
               Returned (Some (solid 1 1 (0, 0, 255)))) by reflexivity.
  assert (H3 : swap_channels (solid 1 1 (0, 0, 255)) = solid 1 1 (255, 0, 0))
    by reflexivity.
  assert (H4 : last_frame (world_with (solid 1 1 (255, 0, 0))) = Some 0%nat)
    by reflexivity.
  assert (H5 : frames (world_with (solid 1 1 (255, 0, 0))) !! 0%nat =
               Some (solid 1 1 (255, 0, 0))) by reflexivity.
  split; [exact (conj H1 (conj H2 (conj H3 (conj H4 H5))))|].
  exact (@upload_agrees_with_process exact_arith reference_cv _ red_pixel_file
           _ _ 0%nat _ H1 H2 H3 H4 H5).
Defined.

Lemma stream_follows_capture_witness :
  raw_encode [(IMWRITE_JPEG_QUALITY, 60); (IMWRITE_JPEG_OPTIMIZE, 1)] pale_red_frame =
    Returned [x01; x01; x96; x78; x73] /\
  exists w1 w2 w3,
    @Optimized.capture_loop [Returned pale_red_frame] initial_world = (Returned tt, w1) /\
    @Optimized.gen_frames reference_cv w1 =
      (Returned (Yield (multipart [x01; x01; x96; x78; x73])), w2) /\
    @Optimized.gen_frames reference_cv w2 = (Returned Wait, w2) /\
    @Optimized.capture_loop [Raised (RuntimeError "Camera frontend has timed out")] w2 =
      (Returned tt, w3) /\
    @Optimized.gen_frames reference_cv w3 = (Returned Wait, w3).
Proof.
  assert (H1 : @imencode_jpg reference_cv
                 [(IMWRITE_JPEG_QUALITY, 60); (IMWRITE_JPEG_OPTIMIZE, 1)] pale_red_frame =
               Returned [x01; x01; x96; x78; x73]) by reflexivity.
  split; [exact H1|].
  destruct (@stream_follows_capture reference_cv pale_red_frame _
              (RuntimeError "Camera frontend has timed out") initial_world H1)
    as (w1 & w2 & w3 & R1 & R2 & R3 & R4 & R5 & _).
  exists w1, w2, w3. split; [exact R1|]. split; [exact R2|]. split; [exact R3|].
  split; [exact R4 | exact R5].
Defined.

Lemma baseline_stream_repeats_witness :
  (last_frame (world_with pale_red_frame) = Some 0%nat /\
   frames (world_with pale_red_frame) !! 0%nat = Some pale_red_frame /\
   (shape0 pale_red_frame * shape1 pale_red_frame)%nat <> 0%nat /\
   raw_encode [] (swap_channels pale_red_frame) = Returned [x01; x01; x73; x78; x96]) /\
  exists w1 w2,
    @WithLocalUpload.gen_frames reference_cv (world_with pale_red_frame) =
      (Returned (Yield (multipart [x01; x01; x73; x78; x96])), w1) /\
    @WithLocalUpload.gen_frames reference_cv w1 =
      (Returned (Yield (multipart [x01; x01; x73; x78; x96])), w2) /\
    last_frame w2 = Some 0%nat.
Proof.
  assert (H1 : last_frame (world_with pale_red_frame) = Some 0%nat) by reflexivity.
  assert (H2 : frames (world_with pale_red_frame) !! 0%nat = Some pale_red_frame)
    by reflexivity.
  assert (H3 : (shape0 pale_red_frame * shape1 pale_red_frame)%nat <> 0%nat)
    by (simpl; lia).
  assert (H4 : @imencode_jpg reference_cv [] (swap_channels pale_red_frame) =
               Returned [x01; x01; x73; x78; x96]) by reflexivity.
  split; [exact (conj H1 (conj H2 (conj H3 H4)))|].
  destruct (@baseline_stream_repeats reference_cv (world_with pale_red_frame) 0%nat
              pale_red_frame _ H1 H2 H3 H4)
    as (w1 & w2 & R1 & R2 & Hl & _).
  exists w1, w2. split; [exact R1|]. split; [exact R2 | exact Hl].
Defined.

Lemma streams_before_first_frame_witness :
  (last_frame initial_world = None /\ frame_ready initial_world = false) /\
  @Optimized.gen_frames reference_cv initial_world = (Returned Wait, initial_world) /\
  exists w',
    @WithLocalUpload.gen_frames reference_cv initial_world = (Returned Continue, w') /\
    new_events initial_world w' = [EvAcquire; EvRelease].
Proof.
  assert (H1 : last_frame initial_world = None) by reflexivity.
  assert (H2 : frame_ready initial_world = false) by reflexivity.
  split; [exact (conj H1 H2)|].
  destruct (@streams_before_first_frame reference_cv initial_world H1 H2)
    as (R & w' & R' & He & _).
  split; [exact R|]. exists w'. split; [exact R' | exact He].
Defined.

Lemma picker_reads_the_pixel_witness :
  (({["picture" := four_colours]} : gmap string (ndarray pixel)) !! "picture" =
     Some four_colours /\
   well_shaped four_colours /\
   0 <= 1 < Z.of_nat (shape1 four_colours) /\
   0 <= 0 < Z.of_nat (shape0 four_colours)) /\
  @HsvPicker.get_color_at_coordinate reference_cv
    (Returned (mk_color_request (Some "picture") 1 0)) {["picture" := four_colours]} =
    picker_color (0, 255, 0) (60, 255, 255) 1 0.
Proof.
  assert (H1 : ({["picture" := four_colours]} : gmap string (ndarray pixel)) !! "picture" =
               Some four_colours) by reflexivity.
  assert (H2 : well_shaped four_colours) by reflexivity.
  assert (H3 : 0 <= 1 < Z.of_nat (shape1 four_colours)) by (simpl; lia).
  assert (H4 : 0 <= 0 < Z.of_nat (shape0 four_colours)) by (simpl; lia).
  split; [exact (conj H1 (conj H2 (conj H3 H4)))|].
  destruct (@picker_reads_the_pixel reference_cv _ "picture" four_colours 1 0
              H1 H2 H3 H4) as (bgr & Hd & Hc).
  simpl in Hd. injection Hd as <-. exact Hc.
Defined.

Lemma picker_bounds_check_witness :
  (({["picture" := four_colours]} : gmap string (ndarray pixel)) !! "picture" =
     Some four_colours /\
   well_shaped four_colours) /\
  @HsvPicker.get_color_at_coordinate reference_cv
    (Returned (mk_color_request (Some "picture") 2 1)) {["picture" := four_colours]} =
    picker_error "Coordinates out of bounds".
Proof.
  assert (H1 : ({["picture" := four_colours]} : gmap string (ndarray pixel)) !! "picture" =
               Some four_colours) by reflexivity.
  assert (H2 : well_shaped four_colours) by reflexivity.
  split; [exact (conj H1 H2)|].
  apply (proj2 (@picker_bounds_check reference_cv _ "picture" four_colours 2 1 H1 H2)).
  simpl. lia.
Defined.

Lemma picker_upload_then_pick_witness :
  (({["file" := mk_upload "tomato.jpg" red_pixel_file]} : gmap string upload) !! "file" =
     Some (mk_upload "tomato.jpg" red_pixel_file) /\
   filename (mk_upload "tomato.jpg" red_pixel_file) <> "" /\
   raw_decode (content (mk_upload "tomato.jpg" red_pixel_file)) =
     Returned (Some (solid 1 1 (0, 0, 255))) /\
   well_shaped (solid 1 1 (0, 0, 255)) /\
   0 <= 0 < Z.of_nat (shape1 (solid 1 1 (0, 0, 255))) /\
   0 <= 0 < Z.of_nat (shape0 (solid 1 1 (0, 0, 255)))) /\
  (@HsvPicker.upload_file reference_cv plain_text
     {["file" := mk_upload "tomato.jpg" red_pixel_file]} "id-1" ∅).2 !! "id-1" =
    Some (solid 1 1 (0, 0, 255)) /\
  @HsvPicker.get_color_at_coordinate reference_cv
    (Returned (mk_color_request (Some "id-1") 0 0))
    (@HsvPicker.upload_file reference_cv plain_text
       {["file" := mk_upload "tomato.jpg" red_pixel_file]} "id-1" ∅).2 =
    picker_color (255, 0, 0) (0, 255, 255) 0 0.
Proof.
  assert (H1 : ({["file" := mk_upload "tomato.jpg" red_pixel_file]} : gmap string upload)
                 !! "file" = Some (mk_upload "tomato.jpg" red_pixel_file)) by reflexivity.
  assert (H2 : filename (mk_upload "tomato.jpg" red_pixel_file) <> "") by discriminate.
  assert (H3 : @imdecode reference_cv (content (mk_upload "tomato.jpg" red_pixel_file)) =
               Returned (Some (solid 1 1 (0, 0, 255)))) by reflexivity.
  assert (H4 : well_shaped (solid 1 1 (0, 0, 255))) by reflexivity.
  assert (H5 : 0 <= 0 < Z.of_nat (shape1 (solid 1 1 (0, 0, 255)))) by (simpl; lia).
  assert (H6 : 0 <= 0 < Z.of_nat (shape0 (solid 1 1 (0, 0, 255)))) by (simpl; lia).
  split; [exact (conj H1 (conj H2 (conj H3 (conj H4 (conj H5 H6)))))|].
  destruct (@picker_upload_then_pick reference_cv plain_text _ "id-1" ∅ _ _ 0 0
              H1 H2 H3 H4 H5 H6) as (Hs & _ & bgr & Hd & Hc).
  split; [exact Hs|].
  simpl in Hd. injection Hd as <-. exact Hc.
Defined.

Lemma picker_matches_classifier_witness :
  (({["picture" := four_colours]} : gmap string (ndarray pixel)) !! "picture" =
     Some four_colours /\
   well_shaped four_colours /\
   0 <= 0 < Z.of_nat (shape1 four_colours) /\
   0 <= 1 < Z.of_nat (shape0 four_colours)) /\
  exists rgb hsv,
    @HsvPicker.get_color_at_coordinate reference_cv
      (Returned (mk_color_request (Some "picture") 0 1)) {["picture" := four_colours]} =
      picker_color rgb hsv 0 1 /\
    data (@hsv_of reference_cv (swap_channels four_colours)) !! 2%nat = Some hsv /\
    data (@mask_fun reference_cv ripe_ranges (swap_channels four_colours)) !! 2%nat =
      Some (if in_group ripe_ranges hsv then 255 else 0).
Proof.
  assert (H1 : ({["picture" := four_colours]} : gmap string (ndarray pixel)) !! "picture" =
               Some four_colours) by reflexivity.
  assert (H2 : well_shaped four_colours) by reflexivity.
  assert (H3 : 0 <= 0 < Z.of_nat (shape1 four_colours)) by (simpl; lia).
  assert (H4 : 0 <= 1 < Z.of_nat (shape0 four_colours)) by (simpl; lia).
  split; [exact (conj H1 (conj H2 (conj H3 H4)))|].
  destruct (@picker_matches_classifier reference_cv _ "picture" four_colours 0 1
              ripe_ranges H1 H2 H3 H4) as (rgb & hsv & Hc & _ & Hh & Hm).
  exists rgb, hsv. split; [exact Hc|]. split; [exact Hh | exact Hm].
Defined.

Lemma lock_is_given_back_witness :
  lock_held (world_with empty_frame) = false /\
  (@Optimized.process_camera exact_arith reference_cv (world_with empty_frame)).1 =
    Raised empty_error /\
  lock_after false
    (new_events (world_with empty_frame)
       (@Optimized.process_camera exact_arith reference_cv (world_with empty_frame)).2) =
    Some false /\
  lock_held
    (@Optimized.process_camera exact_arith reference_cv (world_with empty_frame)).2 = false.
Proof.
  assert (H1 : lock_held (world_with empty_frame) = false) by reflexivity.
  split; [exact H1|]. split; [reflexivity|].
  destruct (@lock_is_given_back exact_arith reference_cv (world_with empty_frame) H1)
    as (A & B & _).
  split; [exact A | exact B].
Defined.
